(** * Verification of the download core of dlp-gui

    Shallow embedding of [src/Core/threads.py] (the classes
    [DownloadThread] and [DownloadManager]), of [Downloader.download]
    from [src/Core/downloader.py] and of [ContentBlocker.is_blocked]
    from [src/Core/blocker.py].

    Conventions of the embedding:
    - [time.time()] is read as an integer number of milliseconds [Z];
    - Python floats used for percentages and speeds are rationals [Q];
    - Python exceptions are the constructors of [PyExc]; a method that
      may raise runs in the state and exception monad [M] below;
    - the Qt mutexes only serialise the code they guard; each guarded
      block is one atomic step of the model. *)

From Stdlib Require Import Ascii String List ZArith QArith Qround Qabs Lia Permutation Bool.
From stdpp Require Import base list.

Import ListNotations.
Open Scope string_scope.

(* ------------------------------------------------------------------ *)
(** ** Python helpers *)

(** Decimal rendering of an integer, as [str(n)] / an f-string. *)
Definition digit_char (d : Z) : Ascii.ascii :=
  Ascii.ascii_of_nat (48 + Z.to_nat d).

Fixpoint digits_aux (fuel : nat) (n : Z) (acc : string) : string :=
  match fuel with
  | O => acc
  | S f =>
      let acc' := String (digit_char (n mod 10)) acc in
      if (n / 10 =? 0)%Z then acc' else digits_aux f (n / 10) acc'
  end.

Definition py_str_int (n : Z) : string :=
  if (n <? 0)%Z then "-" ++ digits_aux 64 (- n) ""
  else digits_aux 64 n "".

(** Truthiness of a Python list. *)
Definition list_truthy {A} (l : list A) : bool :=
  match l with [] => false | _ => true end.

(** [os.path.basename]: the part after the last ['/']. *)
Fixpoint basename_aux (s : string) (cur : string) : string :=
  match s with
  | EmptyString => cur
  | String c rest =>
      if Ascii.eqb c "/"%char then basename_aux rest ""
      else basename_aux rest (cur ++ String c EmptyString)
  end.

Definition basename (s : string) : string := basename_aux s "".

(** Python exceptions raised or caught by the modelled code. *)
Inductive PyExc : Type :=
| DownloadValidationError (msg : string)
| DownloadNetworkError (msg : string)
| DownloadStorageError (msg : string)
| TypeError (msg : string)
| OverflowError (msg : string)
| OtherException (msg : string).

(** [str(e)] *)
Definition exc_str (e : PyExc) : string :=
  match e with
  | DownloadValidationError m | DownloadNetworkError m
  | DownloadStorageError m | TypeError m | OverflowError m | OtherException m => m
  end.

(* ------------------------------------------------------------------ *)
(** ** [DownloadStatus], [DownloadProgress] and the thread signals *)

Inductive DownloadStatus : Type :=
| PENDING | DOWNLOADING | PAUSED | COMPLETED | FAILED | CANCELLED.

Definition status_eqb (a b : DownloadStatus) : bool :=
  match a, b with
  | PENDING, PENDING | DOWNLOADING, DOWNLOADING | PAUSED, PAUSED
  | COMPLETED, COMPLETED | FAILED, FAILED | CANCELLED, CANCELLED => true
  | _, _ => false
  end.

Record DownloadProgress : Type := mkProgress {
  status : DownloadStatus;
  progress : Q;
  speed : Q;
  eta : option Z;
  downloaded_bytes : Z;
  total_bytes : option Z;
  filename : string;
  error_message : string
}.

(** [DownloadProgress(status)] with the dataclass defaults. *)
Definition new_progress (s : DownloadStatus) : DownloadProgress :=
  mkProgress s 0 0 None 0 None "" "".

Definition set_status (s : DownloadStatus) (p : DownloadProgress) :=
  mkProgress s (progress p) (speed p) (eta p) (downloaded_bytes p)
    (total_bytes p) (filename p) (error_message p).
Definition set_progress (q : Q) (p : DownloadProgress) :=
  mkProgress (status p) q (speed p) (eta p) (downloaded_bytes p)
    (total_bytes p) (filename p) (error_message p).
Definition set_filename (f : string) (p : DownloadProgress) :=
  mkProgress (status p) (progress p) (speed p) (eta p) (downloaded_bytes p)
    (total_bytes p) f (error_message p).
Definition set_error_message (m : string) (p : DownloadProgress) :=
  mkProgress (status p) (progress p) (speed p) (eta p) (downloaded_bytes p)
    (total_bytes p) (filename p) m.

(** The signals a [DownloadThread] emits, in emission order. *)
Inductive Signal : Type :=
| progress_updated (p : DownloadProgress)
| download_started (url : string)
| download_completed (success : bool) (message : string) (files : list string)
| download_cancelled
| error_occurred (error_type : string) (message : string).

(** The fields of a [DownloadThread] the modelled methods read and write. *)
Record DThread : Type := mkDThread {
  url : string;
  output_path : string;
  download_id : string;
  is_paused : bool;
  is_cancelled : bool;
  current_progress : DownloadProgress;
  last_update_time : Z;
  downloaded_files : list string;
  emitted : list Signal
}.

(** [self._update_interval = 0.5], in milliseconds. *)
Definition update_interval : Z := 500.

(** [f"dl_{int(time.time())}"] with the clock read in milliseconds. *)
Definition make_download_id (now_ms : Z) : string :=
  "dl_" ++ py_str_int (Z.quot now_ms 1000).

(** [DownloadThread.__init__] *)
Definition new_dthread (now_ms : Z) (u o : string) : DThread :=
  mkDThread u o (make_download_id now_ms) false false
    (new_progress PENDING) 0 [] [].

(* ------------------------------------------------------------------ *)
(** ** A state and exception monad for the methods of a thread *)

Inductive Result (A : Type) : Type :=
| Ok (a : A)
| Raise (e : PyExc).
Arguments Ok {A} a.
Arguments Raise {A} e.

Definition M (A : Type) : Type := DThread -> Result A * DThread.

Global Instance M_ret : MRet M := fun A a t => (Ok a, t).
Global Instance M_bind : MBind M := fun A B k c t =>
  match c t with
  | (Ok a, t') => k a t'
  | (Raise e, t') => (Raise e, t')
  end.

Definition get_t : M DThread := fun t => (Ok t, t).
Definition modify_t (f : DThread -> DThread) : M unit := fun t => (Ok tt, f t).
Definition raise {A} (e : PyExc) : M A := fun t => (Raise e, t).

(** [try: c except Exception as e: h(e)] *)
Definition try_except {A} (c : M A) (h : PyExc -> M A) : M A := fun t =>
  match c t with
  | (Raise e, t') => h e t'
  | r => r
  end.

Definition with_progress (f : DownloadProgress -> DownloadProgress) (t : DThread) :=
  mkDThread (url t) (output_path t) (download_id t) (is_paused t) (is_cancelled t)
    (f (current_progress t)) (last_update_time t) (downloaded_files t) (emitted t).
Definition with_paused (b : bool) (t : DThread) :=
  mkDThread (url t) (output_path t) (download_id t) b (is_cancelled t)
    (current_progress t) (last_update_time t) (downloaded_files t) (emitted t).
Definition with_cancelled (b : bool) (t : DThread) :=
  mkDThread (url t) (output_path t) (download_id t) (is_paused t) b
    (current_progress t) (last_update_time t) (downloaded_files t) (emitted t).
Definition with_last_update (n : Z) (t : DThread) :=
  mkDThread (url t) (output_path t) (download_id t) (is_paused t) (is_cancelled t)
    (current_progress t) n (downloaded_files t) (emitted t).
Definition with_files (fs : list string) (t : DThread) :=
  mkDThread (url t) (output_path t) (download_id t) (is_paused t) (is_cancelled t)
    (current_progress t) (last_update_time t) fs (emitted t).

(** [signal.emit(...)] *)
Definition emit (s : Signal) : M unit := modify_t (fun t =>
  mkDThread (url t) (output_path t) (download_id t) (is_paused t) (is_cancelled t)
    (current_progress t) (last_update_time t) (downloaded_files t)
    (emitted t ++ [s])).

Definition emit_current_progress : M unit :=
  t ← get_t; emit (progress_updated (current_progress t)).

(* ------------------------------------------------------------------ *)
(** ** [DownloadThread] control methods *)

(** [_cleanup_temp_files]: [self._temp_files] is never appended to, so
    the loop has nothing to delete. *)
Definition cleanup_temp_files : M unit := mret tt.

(** [_handle_error] *)
Definition handle_error (error_type error_msg : string) : M unit :=
  modify_t (with_progress (fun p => set_error_message error_msg (set_status FAILED p)));;
  emit_current_progress;;
  emit (error_occurred error_type error_msg);;
  emit (download_completed false error_msg []);;
  cleanup_temp_files.

(** [with QMutex(self._mutex): body].  [self._mutex] is a [QMutex], and
    PyQt6's [QMutex] has only the constructor without arguments ([QMutex]
    cannot be copied), so evaluating [QMutex(self._mutex)] raises
    [TypeError] before the block is entered: [body] never runs.  It is
    kept as an argument so that each method below reads like its
    source. *)
Definition qmutex_error : PyExc := TypeError "QMutex(): too many arguments".

Definition with_new_qmutex {A} (body : M A) : M A := raise qmutex_error.

(** [resume] *)
Definition resume : M unit :=
  with_new_qmutex (
    t ← get_t;
    if status_eqb (status (current_progress t)) PAUSED then
      modify_t (with_paused false);;
      modify_t (with_progress (set_status DOWNLOADING));;
      emit_current_progress
    else mret tt).

(** [pause] *)
Definition pause : M unit :=
  with_new_qmutex (
    t ← get_t;
    if status_eqb (status (current_progress t)) DOWNLOADING then
      modify_t (with_paused true);;
      modify_t (with_progress (set_status PAUSED));;
      emit_current_progress
    else mret tt).

(** [cancel] ([_should_stop] is never read, and the [wakeAll] has no
    waiter to wake: the wait of [_progress_callback] is never reached). *)
Definition cancel : M unit :=
  with_new_qmutex (modify_t (with_cancelled true)).

(* ------------------------------------------------------------------ *)
(** ** [Downloader.download] and [DownloadThread.run] *)

(** What the file system and yt-dlp do during one run. *)
Record RunEnv : Type := mkRunEnv {
  out_exists : bool;                 (* [output_dir.exists()] *)
  out_writable : bool;               (* [os.access(output_dir, os.W_OK)] *)
  mkdir_error : option string;       (* [mkdir] raising [OSError] *)
  ydl_error : option string;         (* [ydl.download] raising *)
  cancelled_during_download : bool   (* [cancel()] called meanwhile *)
}.

(** [Downloader.download]: every exception is caught inside, the result
    is the documented [bool]. *)
Definition downloader_download (u o : string) (env : RunEnv) : bool :=
  if String.eqb u "" then false
  else match ydl_error env with None => true | Some _ => false end.

(** The progress hooks yt-dlp receives.  [run] stores
    [[self._progress_callback]] in the options; [Downloader.download]
    copies the options and overwrites ["progress_hooks"] with a
    [DownloadProgressHook] whenever a [progress_callback] is passed. *)
Inductive Hook : Type :=
| thread_progress_callback            (* DownloadThread._progress_callback *)
| progress_hook_of_message_callback.  (* DownloadProgressHook(progress_callback) *)

Definition downloader_progress_hooks (config_hooks : list Hook)
    (progress_callback_given : bool) : list Hook :=
  if progress_callback_given then [progress_hook_of_message_callback]
  else config_hooks.

(** [run] passes [progress_callback=self._progress_message_callback], a
    bound method, hence truthy. *)
Definition run_progress_hooks : list Hook :=
  downloader_progress_hooks [thread_progress_callback] true.

(** The value an executor call returns, as far as the tuple
    assignment [success, file_paths = ...] inspects it. *)
Inductive AdapterRet : Type :=
| RetBool (b : bool)
| RetPair (success : bool) (file_paths : list string).

(** [success, file_paths = v] *)
Definition unpack_pair (v : AdapterRet) : M (bool * list string) :=
  match v with
  | RetBool _ => raise (TypeError "cannot unpack non-iterable bool object")
  | RetPair s fs => mret (s, fs)
  end.

(** [str(Path(p))] on POSIX: the components between slashes, without
    empty and ["."] ones, joined by ['/'] after the root (["//"] for
    exactly two leading slashes, ["/"] for one or more than two);
    ["."] when nothing is left. *)
Fixpoint path_components (s : string) (cur : string) : list string :=
  match s with
  | EmptyString => [cur]
  | String c s' =>
      if Ascii.eqb c "/" then cur :: path_components s' ""
      else path_components s' (cur ++ String c "")
  end.

Definition path_root (s : string) : string :=
  if String.prefix "///" s then "/"
  else if String.prefix "//" s then "//"
  else if String.prefix "/" s then "/"
  else "".

Definition path_str (s : string) : string :=
  let parts := List.filter (fun c => negb (String.eqb c "") && negb (String.eqb c "."))
                 (path_components s "") in
  if String.eqb (path_root s) "" && negb (list_truthy parts) then "."
  else path_root s ++ String.concat "/" parts.

(** [_validate_inputs] ([self.url] is a [str] here) *)
Definition validate_inputs (env : RunEnv) : M unit :=
  t ← get_t;
  if String.eqb (url t) "" then raise (DownloadValidationError "Invalid URL provided")
  else if String.eqb (output_path t) "" then
    raise (DownloadValidationError "Output path not specified")
  else if out_exists env && negb (out_writable env) then
    raise (DownloadStorageError ("Output directory is not writable: " ++ path_str (output_path t)))
  else mret tt.

(** [_setup_output_directory] *)
Definition setup_output_directory (env : RunEnv) : M unit :=
  match mkdir_error env with
  | Some e => raise (DownloadStorageError ("Failed to create output directory: " ++ e))
  | None => mret tt
  end.

(** [_get_completion_message] *)
Definition completion_message (paths : list string) : string :=
  match paths with
  | [p] => "Successfully downloaded: " ++ basename p
  | _ => "Successfully downloaded " ++ py_str_int (Z.of_nat (length paths)) ++ " files"
  end.

(** A call made on the thread object from another thread: its effect on
    the object's state, while what it raises is raised in the caller. *)
Definition from_other_thread (c : M unit) : M unit :=
  fun t => (Ok tt, snd (c t)).

(** The executor call of [run]: the download itself, during which
    another thread may call [cancel()]. *)
Definition call_executor (executor : string -> string -> RunEnv -> AdapterRet)
    (env : RunEnv) : M AdapterRet :=
  t ← get_t;
  (if cancelled_during_download env then from_other_thread cancel else mret tt);;
  mret (executor (url t) (output_path t) env).

(** The part of [run] after the executor returned. *)
Definition finish_run (success : bool) (file_paths : list string) : M unit :=
  t ← get_t;
  if is_cancelled t then
    cleanup_temp_files;;
    modify_t (with_progress (set_status CANCELLED));;
    emit download_cancelled
  else if success && list_truthy file_paths then
    modify_t (with_files file_paths);;
    modify_t (with_progress (fun p => set_progress 100 (set_status COMPLETED p)));;
    emit_current_progress;;
    emit (download_completed true (completion_message file_paths) file_paths)
  else
    modify_t (with_progress (fun p =>
      set_error_message "Download failed - no files were downloaded"
        (set_status FAILED p)));;
    emit_current_progress;;
    emit (download_completed false "Download failed" []).

(** The [except] clauses of [run]. *)
Definition run_handler (e : PyExc) : M unit :=
  match e with
  | DownloadValidationError m => handle_error "validation" m
  | DownloadNetworkError m => handle_error "network" m
  | DownloadStorageError m => handle_error "storage" m
  | e => handle_error "unknown" ("Unexpected error: " ++ exc_str e)
  end.

(** The first two statements of [run], before its [try]. *)
Definition run_start : M unit :=
  modify_t (with_progress (set_status DOWNLOADING));;
  t ← get_t;
  emit (download_started (url t)).

(** The body of the [try] of [run]. *)
Definition run_body (executor : string -> string -> RunEnv -> AdapterRet)
    (env : RunEnv) : M unit :=
  validate_inputs env;;
  setup_output_directory env;;
  r ← call_executor executor env;
  sf ← unpack_pair r;
  finish_run (fst sf) (snd sf).

(** [run], for an arbitrary executor. *)
Definition run_with (executor : string -> string -> RunEnv -> AdapterRet)
    (env : RunEnv) : M unit :=
  run_start;;
  try_except (run_body executor env) run_handler.

(** [DownloadThread.run] with the repository's executor,
    [Downloader.download]. *)
Definition run (env : RunEnv) : M unit :=
  run_with (fun u o e => RetBool (downloader_download u o e)) env.

(* ------------------------------------------------------------------ *)
(** ** [DownloadThread._progress_callback] *)

(** A yt-dlp progress dictionary; [None] is a missing key. *)
Record ProgressData : Type := mkData {
  pd_status : option string;
  pd_error : option string;
  pd_filename : option string;
  pd_total_bytes : option Z;
  pd_total_bytes_estimate : option Z;
  pd_downloaded_bytes : option Z;
  pd_speed : option Q;
  pd_eta : option Z
}.

Definition get_default {A} (d : A) (o : option A) : A :=
  match o with Some a => a | None => d end.

(** [x or y] on optional integers ([None] and [0] are falsy). *)
Definition py_or_int (x y : option Z) : option Z :=
  match x with
  | Some v => if (v =? 0)%Z then y else x
  | None => y
  end.

(** [min(a, b)] on floats: [b] only when [b < a]. *)
Definition py_min_q (a b : Q) : Q := if Qle_bool a b then a else b.

(** [_handle_downloading_progress] *)
Definition handle_downloading_progress (data : ProgressData) : M unit :=
  let total := py_or_int (pd_total_bytes data) (pd_total_bytes_estimate data) in
  let downloaded := get_default 0%Z (pd_downloaded_bytes data) in
  let sp := get_default 0%Q (pd_speed data) in
  let fname := get_default "" (pd_filename data) in
  let percent :=
    match total with
    | Some tb => if (0 <? tb)%Z
                 then py_min_q 100 (inject_Z downloaded / inject_Z tb * 100)
                 else 0%Q
    | None => 0%Q
    end in
  modify_t (with_progress (fun _ =>
    mkProgress DOWNLOADING percent sp (pd_eta data) downloaded total
      (if String.eqb fname "" then "" else basename fname) ""));;
  emit_current_progress.

(** [_handle_finished_progress] *)
Definition handle_finished_progress (data : ProgressData) : M unit :=
  let fname := get_default "" (pd_filename data) in
  t ← get_t;
  (if negb (String.eqb fname "") && negb (existsb (String.eqb fname) (downloaded_files t))
   then modify_t (with_files (downloaded_files t ++ [fname]))
   else mret tt);;
  modify_t (with_progress (fun p =>
    set_progress 100 (set_filename (if String.eqb fname "" then "" else basename fname) p)));;
  emit_current_progress.

(** The status dispatch of the callback, then the throttle bookkeeping. *)
Definition dispatch_progress (now : Z) (data : ProgressData) : M unit :=
  let st := get_default "" (pd_status data) in
  (if String.eqb st "downloading" then handle_downloading_progress data
   else if String.eqb st "finished" then handle_finished_progress data
   else if String.eqb st "error" then
     raise (DownloadNetworkError (get_default "Unknown download error" (pd_error data)))
   else mret tt);;
  modify_t (with_last_update now).

(** [_progress_callback progress_data] called at time [now].  On a
    paused thread, [with QMutex(self._mutex)] raises inside the [try]
    (the wait, [self._wait_condition.wait(self._mutex)], is not reached),
    so the [except] branch reports it. *)
Definition progress_callback (now : Z) (data : ProgressData) : M unit :=
  t ← get_t;
  if (now - last_update_time t <? update_interval)%Z then mret tt
  else
    try_except
      (t ← get_t;
       if is_cancelled t then mret tt
       else if is_paused t then
         with_new_qmutex (mret tt);;
         t' ← get_t;
         if is_cancelled t' then mret tt else dispatch_progress now data
       else dispatch_progress now data)
      (fun e => handle_error "progress" ("Progress callback error: " ++ exc_str e)).


(** The calls other threads make on a [DownloadThread]: the control
    methods from the GUI, and the progress callbacks.  An exception a
    call raises goes back to its caller; the thread keeps the state the
    call left. *)
Inductive ThreadCall : Type :=
| CallPause
| CallResume
| CallCancel
| CallProgress (now : Z) (data : ProgressData).

Definition thread_call (c : ThreadCall) : M unit :=
  match c with
  | CallPause => pause
  | CallResume => resume
  | CallCancel => cancel
  | CallProgress now data => progress_callback now data
  end.

Fixpoint run_calls (cs : list ThreadCall) (t : DThread) : DThread :=
  match cs with
  | [] => t
  | c :: cs' => run_calls cs' (snd (thread_call c t))
  end.

(* ------------------------------------------------------------------ *)
(** ** [DownloadManager] *)

(** What the manager knows of a queued or active [DownloadThread]: the
    Python object ([job_obj], its identity), its [download_id] and
    whether [cancel()] was called on it. *)
Record Job : Type := mkJob {
  job_obj : nat;
  job_id : string;
  job_cancelled : bool
}.

(** A Python [dict] keyed by [download_id], in insertion order. *)
Definition JobDict := list (string * Job).

(** [d[k] = v]: replaces the value in place when [k] is a key,
    appends otherwise. *)
Fixpoint dict_set (k : string) (v : Job) (d : JobDict) : JobDict :=
  match d with
  | [] => [(k, v)]
  | (k', v') :: d' =>
      if String.eqb k k' then (k, v) :: d' else (k', v') :: dict_set k v d'
  end.

(** [del d[k]] *)
Fixpoint dict_del (k : string) (d : JobDict) : JobDict :=
  match d with
  | [] => []
  | (k', v') :: d' => if String.eqb k k' then d' else (k', v') :: dict_del k d'
  end.

(** [k in d] *)
Definition dict_mem (k : string) (d : JobDict) : bool :=
  existsb (fun kv => String.eqb k (fst kv)) d.

Record Manager : Type := mkManager {
  max_concurrent_downloads : Z;
  active_downloads : JobDict;
  download_queue : list Job;
  completed_downloads : list string;
  mgr_is_running : bool;
  next_obj : nat          (* identity of the next [DownloadThread] *)
}.

(** [DownloadManager.__init__] *)
Definition new_manager (max_concurrent : Z) : Manager :=
  mkManager max_concurrent [] [] [] false 0.

(** [DownloadManager.add_download] at time [now]: the id and the new
    state; the third component says whether [self.start()] was called. *)
Definition new_job (now : Z) (m : Manager) : Job :=
  mkJob (next_obj m) (make_download_id now) false.

Definition add_download (now : Z) (m : Manager) : string * Manager * bool :=
  let j := new_job now m in
  (job_id j,
   mkManager (max_concurrent_downloads m) (active_downloads m)
     (app (download_queue m) [j]) (completed_downloads m) true (S (next_obj m)),
   negb (mgr_is_running m)).

(** [DownloadManager.remove_download]: its whole body is in
    [with QMutex(self._mutex)], which raises [TypeError] (see
    [with_new_qmutex]) before any of it runs.  The exception reaches the
    caller and the manager is left as it was. *)
Definition remove_download (id : string) (m : Manager) : Result bool * Manager :=
  (Raise qmutex_error, m).

(** [DownloadManager.cancel_all]: the first [download_thread.cancel()]
    of the loop raises (see [cancel]), before the queue is touched, so
    the method completes only when no download is active. *)
Definition cancel_all (m : Manager) : Result Z * Manager :=
  match active_downloads m with
  | _ :: _ => (Raise qmutex_error, m)
  | [] =>
      (Ok (Z.of_nat (length (download_queue m))),
       mkManager (max_concurrent_downloads m) (active_downloads m) []
         (completed_downloads m) (mgr_is_running m) (next_obj m))
  end.

(** [DownloadManager.pause_download] and [resume_download]: the call
    [self._active_downloads[download_id].pause()] (or [.resume()])
    raises (see [pause] and [resume]) before [return True]. *)
Definition pause_download (id : string) (m : Manager) : Result bool :=
  if dict_mem id (active_downloads m) then Raise qmutex_error else Ok false.

Definition resume_download (id : string) (m : Manager) : Result bool :=
  if dict_mem id (active_downloads m) then Raise qmutex_error else Ok false.

(** [DownloadManager.pause_all] and [resume_all]; [status_of j] is
    [j._current_progress.status] at the time of the call.  The first
    thread that passes the status test gets [pause()] (or [resume()]),
    which raises before the count is incremented. *)
Fixpoint pause_all_loop (status_of : Job -> DownloadStatus) (d : JobDict) (count : Z)
    : Result Z :=
  match d with
  | [] => Ok count
  | (_, j) :: d' =>
      if status_eqb (status_of j) DOWNLOADING then Raise qmutex_error
      else pause_all_loop status_of d' count
  end.

Definition pause_all (status_of : Job -> DownloadStatus) (m : Manager) : Result Z :=
  pause_all_loop status_of (active_downloads m) 0.

Fixpoint resume_all_loop (status_of : Job -> DownloadStatus) (d : JobDict) (count : Z)
    : Result Z :=
  match d with
  | [] => Ok count
  | (_, j) :: d' =>
      if status_eqb (status_of j) PAUSED then Raise qmutex_error
      else resume_all_loop status_of d' count
  end.

Definition resume_all (status_of : Job -> DownloadStatus) (m : Manager) : Result Z :=
  resume_all_loop status_of (active_downloads m) 0.

(** [DownloadManager.set_max_concurrent_downloads] *)
Definition set_max_concurrent_downloads (n : Z) (m : Manager) : Manager :=
  if (0 <? n)%Z then
    mkManager n (active_downloads m) (download_queue m) (completed_downloads m)
      (mgr_is_running m) (next_obj m)
  else m.

(** [DownloadManager.is_active] *)
Definition is_active (m : Manager) : bool := mgr_is_running m.

(** The first loop of [_process_download_queue]: ids of the active
    threads for which [isRunning()] ([alive]) is false. *)
Definition finished_ids (alive : Job -> bool) (d : JobDict) : list string :=
  map fst (List.filter (fun kv => negb (alive (snd kv))) d).

(** The second loop: [del self._active_downloads[id]] for each. *)
Definition delete_ids (ids : list string) (d : JobDict) : JobDict :=
  fold_left (fun acc k => dict_del k acc) ids d.

(** The start loop: [n] times, pop the head of the queue, register it
    under its id and [start()] it; the started jobs come third. *)
Fixpoint start_loop (n : nat) (act : JobDict) (q : list Job)
    : JobDict * list Job * list Job :=
  match n with
  | O => (act, q, [])
  | S n' =>
      match q with
      | [] => (act, q, [])
      | j :: q' =>
          let '(a, q'', s) := start_loop n' (dict_set (job_id j) j act) q' in
          (a, q'', j :: s)
      end
  end.

(** [DownloadManager._process_download_queue]; [alive j] is
    [j.isRunning()] at the time of the pass.  Returns the new state and
    the jobs started, in order. *)
Definition process_download_queue (alive : Job -> bool) (m : Manager)
    : Manager * list Job :=
  let done_ids := finished_ids alive (active_downloads m) in
  let act1 := delete_ids done_ids (active_downloads m) in
  let comp1 := app (completed_downloads m) done_ids in
  let available_slots := (max_concurrent_downloads m - Z.of_nat (length act1))%Z in
  let n := Z.to_nat (Z.min available_slots (Z.of_nat (length (download_queue m)))) in
  let '(act2, q2, started) := start_loop n act1 (download_queue m) in
  let running :=
    if list_truthy act2 || list_truthy q2 then mgr_is_running m else false in
  (mkManager (max_concurrent_downloads m) act2 q2 comp1 running (next_obj m),
   started).

(** Calls on the manager, each one atomic. *)
Inductive MgrOp : Type :=
| OpAdd (now : Z)
| OpRemove (id : string)
| OpCancelAll
| OpSetMax (n : Z)
| OpProcess (alive : Job -> bool).

(** A run of calls: the final state, the jobs started, the jobs submitted. *)
Fixpoint exec (ops : list MgrOp) (m : Manager) : Manager * list Job * list Job :=
  match ops with
  | [] => (m, [], [])
  | op :: ops' =>
      match op with
      | OpAdd now =>
          let '(_, m1, _) := add_download now m in
          let '(m2, st, sub) := exec ops' m1 in
          (m2, st, new_job now m :: sub)
      | OpRemove id => exec ops' (snd (remove_download id m))
      | OpCancelAll => exec ops' (snd (cancel_all m))
      | OpSetMax n => exec ops' (set_max_concurrent_downloads n m)
      | OpProcess alive =>
          let '(m1, st1) := process_download_queue alive m in
          let '(m2, st, sub) := exec ops' m1 in
          (m2, app st1 st, sub)
      end
  end.

(** The state after one call. *)
Definition op_state (op : MgrOp) (m : Manager) : Manager :=
  match op with
  | OpAdd now => snd (fst (add_download now m))
  | OpRemove id => snd (remove_download id m)
  | OpCancelAll => snd (cancel_all m)
  | OpSetMax n => set_max_concurrent_downloads n m
  | OpProcess alive => fst (process_download_queue alive m)
  end.

(* ------------------------------------------------------------------ *)
(** ** The manager thread: [DownloadManager.run] against [add_download]

    The manager is a [QThread]; its [run] loops
    [while self._is_running: self._process_download_queue(); self.msleep(1000)]
    and then emits ["stopped"] and returns.  [add_download] calls
    [self.start()] when the flag is false; [QThread.start()] does nothing
    on a thread that is still running. *)

Inductive ManagerPC : Type :=
| MIdle     (* the QThread is not running *)
| MCheck    (* about to test [while self._is_running] *)
| MSleep    (* in [self.msleep(1000)] after a pass *)
| MExit.    (* the loop has ended, [run] has not returned yet *)

Record Sys : Type := mkSys {
  sys_mgr : Manager;
  sys_pc : ManagerPC
}.

(** [QThread.start()] *)
Definition qthread_start (pc : ManagerPC) : ManagerPC :=
  match pc with MIdle => MCheck | p => p end.

(** A call of [add_download] from the GUI thread. *)
Definition sys_add (now : Z) (s : Sys) : Sys :=
  let '(_, m', start_called) := add_download now (sys_mgr s) in
  mkSys m' (if start_called then qthread_start (sys_pc s) else sys_pc s).

(** One step of the manager thread. *)
Definition sys_loop_step (alive : Job -> bool) (s : Sys) : Sys :=
  match sys_pc s with
  | MCheck =>
      if mgr_is_running (sys_mgr s)
      then mkSys (fst (process_download_queue alive (sys_mgr s))) MSleep
      else mkSys (sys_mgr s) MExit
  | MSleep => mkSys (sys_mgr s) MCheck
  | MExit => mkSys (sys_mgr s) MIdle
  | MIdle => s
  end.

Inductive SysEvent : Type :=
| EvAdd (now : Z)
| EvLoop (alive : Job -> bool).

Definition sys_step (ev : SysEvent) (s : Sys) : Sys :=
  match ev with
  | EvAdd now => sys_add now s
  | EvLoop alive => sys_loop_step alive s
  end.

(** An interleaving of the two threads. *)
Definition sys_run (evs : list SysEvent) (s : Sys) : Sys :=
  fold_left (fun acc ev => sys_step ev acc) evs s.

(* ------------------------------------------------------------------ *)
(** ** [ContentBlocker.is_blocked] *)

Inductive BlockReason : Type :=
| DOMAIN_BLOCKED | KEYWORD_BLOCKED | PATTERN_BLOCKED | WHITELIST_OVERRIDE
| AGE_RESTRICTED | CONTENT_TYPE | CUSTOM_RULE.

Record BlockResult : Type := mkBlockResult {
  br_is_blocked : bool;
  br_reason : BlockReason;
  br_matched_rule : option string;
  br_details : string
}.

(** The fields of [urlparse(url)] the checks read. *)
Record ParsedUrl : Type := mkParsedUrl {
  netloc : string;
  query : string
}.

(** The rule evaluations of a [ContentBlocker] with its current rule
    tables: [urlparse], [_is_whitelisted], [_check_domain_rules],
    [_check_keyword_rules], [_check_pattern_rules] and
    [_check_custom_rules].  Each may raise. *)
Record RuleChecks : Type := mkRuleChecks {
  rc_urlparse : string -> Result ParsedUrl;
  rc_is_whitelisted : string -> string -> Result bool;
  rc_check_domain_rules : string -> Result BlockResult;
  rc_check_keyword_rules : string -> Result BlockResult;
  rc_check_pattern_rules : string -> Result BlockResult;
  rc_check_custom_rules : string -> ParsedUrl -> Result BlockResult
}.

Definition res_bind {A B} (r : Result A) (k : A -> Result B) : Result B :=
  match r with Ok a => k a | Raise e => Raise e end.

(** [domain[4:]] when [domain.startswith("www.")] *)
Definition strip_www (d : string) : string :=
  if String.prefix "www." d then substring 4 (String.length d - 4) d else d.

(** The body of the [try] of [_perform_blocking_check]. *)
Definition blocking_rules (rc : RuleChecks) (u : string) : Result BlockResult :=
  res_bind (rc_urlparse rc u) (fun parsed =>
  let domain := strip_www (netloc parsed) in
  res_bind (rc_is_whitelisted rc domain u) (fun wl =>
  if wl then Ok (mkBlockResult false WHITELIST_OVERRIDE None "URL is whitelisted")
  else
  res_bind (rc_check_domain_rules rc domain) (fun dr =>
  if br_is_blocked dr then Ok dr else
  res_bind (rc_check_keyword_rules rc u) (fun kr =>
  if br_is_blocked kr then Ok kr else
  res_bind (rc_check_pattern_rules rc u) (fun pr =>
  if br_is_blocked pr then Ok pr else
  res_bind (rc_check_custom_rules rc u parsed) (fun cr =>
  if br_is_blocked cr then Ok cr else
  Ok (mkBlockResult false DOMAIN_BLOCKED None "URL allowed"))))))).

(** [_perform_blocking_check]: an exception is turned into a block. *)
Definition perform_blocking_check (rc : RuleChecks) (u : string) : BlockResult :=
  match blocking_rules rc u with
  | Ok r => r
  | Raise e => mkBlockResult true CUSTOM_RULE None ("Blocked due to error: " ++ exc_str e)
  end.

(** The cache: url, result and time stamp (ms), in insertion order. *)
Definition BlockCache := list (string * (BlockResult * Z)).

Definition cache_ttl : Z := 3600000.
Definition cache_max_size : nat := 1000.

Fixpoint cache_find (u : string) (c : BlockCache) : option (BlockResult * Z) :=
  match c with
  | [] => None
  | (k, v) :: c' => if String.eqb u k then Some v else cache_find u c'
  end.

Definition cache_del (u : string) (c : BlockCache) : BlockCache :=
  List.filter (fun kv => negb (String.eqb u (fst kv))) c.

Fixpoint cache_set (u : string) (v : BlockResult * Z) (c : BlockCache) : BlockCache :=
  match c with
  | [] => [(u, v)]
  | (k, v') :: c' => if String.eqb u k then (u, v) :: c' else (k, v') :: cache_set u v c'
  end.

(** [_get_cached_result] *)
Definition get_cached_result (now : Z) (u : string) (c : BlockCache)
    : option BlockResult * BlockCache :=
  match cache_find u c with
  | None => (None, c)
  | Some (r, ts) =>
      if (cache_ttl <? now - ts)%Z then (None, cache_del u c) else (Some r, c)
  end.

(** Stable insertion by time stamp, for [sorted(..., key=timestamp)]. *)
Fixpoint insert_by_ts (kv : string * (BlockResult * Z)) (c : BlockCache) : BlockCache :=
  match c with
  | [] => [kv]
  | kv' :: c' =>
      if (snd (snd kv') <=? snd (snd kv))%Z then kv' :: insert_by_ts kv c'
      else kv :: c
  end.

Definition sort_by_ts (c : BlockCache) : BlockCache :=
  fold_left (fun acc kv => insert_by_ts kv acc) c [].

(** [_cache_result] *)
Definition cache_result (now : Z) (u : string) (r : BlockResult) (c : BlockCache)
    : BlockCache :=
  let c1 :=
    if Nat.leb cache_max_size (length c) then
      let oldest := map fst (firstn 100 (sort_by_ts c)) in
      List.filter (fun kv => negb (existsb (String.eqb (fst kv)) oldest)) c
    else c in
  cache_set u (r, now) c1.

(** [str.strip()] and [str.lower()].  A Python [str] is modelled as a
    [string] of code points below 256 (one [ascii] each); on that range
    [str.isspace()] holds for 9-13, 28-32, 133 and 160, and
    [str.lower()] maps [A-Z] and [À-Þ] but [×] 32 code points up. *)
Definition is_py_space (c : ascii) : bool :=
  let n := nat_of_ascii c in
  (Nat.leb 9 n && Nat.leb n 13) || (Nat.leb 28 n && Nat.leb n 32) ||
  Nat.eqb n 133 || Nat.eqb n 160.

Fixpoint lstrip (s : string) : string :=
  match s with
  | String c s' => if is_py_space c then lstrip s' else s
  | EmptyString => EmptyString
  end.

Fixpoint rev_string (s : string) (acc : string) : string :=
  match s with
  | String c s' => rev_string s' (String c acc)
  | EmptyString => acc
  end.

Definition py_strip (s : string) : string :=
  rev_string (lstrip (rev_string (lstrip s) "")) "".

Definition ascii_lower (c : ascii) : ascii :=
  let n := nat_of_ascii c in
  if (Nat.leb 65 n && Nat.leb n 90) || (Nat.leb 192 n && Nat.leb n 222 && negb (Nat.eqb n 215))
  then ascii_of_nat (n + 32) else c.

Fixpoint py_lower (s : string) : string :=
  match s with
  | String c s' => String (ascii_lower c) (py_lower s')
  | EmptyString => EmptyString
  end.

(** [ContentBlocker.is_blocked] at time [now]; the audit log write
    ([_log_blocked_request]) catches its [OSError] and leaves the result
    alone, so it is not part of the state here. *)
Definition is_blocked (rc : RuleChecks) (now : Z) (url0 : string) (c : BlockCache)
    : BlockResult * BlockCache :=
  let u := py_lower (py_strip url0) in
  if String.eqb u "" then (mkBlockResult false DOMAIN_BLOCKED None "Empty URL", c)
  else
    match get_cached_result now u c with
    | (Some r, c1) => (r, c1)
    | (None, c1) =>
        let r := perform_blocking_check rc u in
        (r, cache_result now u r c1)
    end.

(** The error type [run] reports for an invalid [JobSpec], if any. *)
Definition invalid_spec_kind (env : RunEnv) (t : DThread) : option string :=
  if String.eqb (url t) "" then Some "validation"
  else if String.eqb (output_path t) "" then Some "validation"
  else if out_exists env && negb (out_writable env) then Some "storage"
  else None.

(** Every id the manager holds: the keys of the active dict, the ids of
    the queued threads and the completed history. *)
Definition mgr_ids (m : Manager) : list string :=
  map fst (active_downloads m) ++ map job_id (download_queue m) ++ completed_downloads m.

(** The queue holds distinct thread objects, all allocated before. *)
Definition mgr_wf (m : Manager) : Prop :=
  List.NoDup (download_queue m) /\
  forall j, In j (download_queue m) -> job_obj j < next_obj m.

(** States reachable from a fresh manager by a run of calls. *)
Definition reachable (m : Manager) : Prop :=
  exists ops n, m = fst (fst (exec ops (new_manager n))).

(* ------------------------------------------------------------------ *)
(** ** The formatting helpers of [threads.py] *)

(** [f"{n:02d}"]: zero-padded to two characters. *)
Definition pad02 (n : Z) : string :=
  if (0 <=? n)%Z && (n <? 10)%Z then "0" ++ py_str_int n else py_str_int n.

(** [format_duration] ([//] and [%] are floor division and modulo). *)
Definition format_duration (seconds : Z) : string :=
  if (seconds <=? 0)%Z then "Unknown"
  else
    let hours := (seconds / 3600)%Z in
    let minutes := ((seconds mod 3600) / 60)%Z in
    let secs := (seconds mod 60)%Z in
    if (0 <? hours)%Z then pad02 hours ++ ":" ++ pad02 minutes ++ ":" ++ pad02 secs
    else pad02 minutes ++ ":" ++ pad02 secs.

(** A reader for the text [format_duration] produces (not part of the
    source): decimal fields separated by [':'], read as [H:M:S] or
    [M:S]. *)
Definition digit_val (c : ascii) : option Z :=
  let n := nat_of_ascii c in
  if Nat.leb 48 n && Nat.leb n 57 then Some (Z.of_nat n - 48)%Z else None.

Fixpoint read_fields (s : string) (cur : Z) : option (list Z) :=
  match s with
  | EmptyString => Some [cur]
  | String c s' =>
      if Ascii.eqb c ":"%char then option_map (cons cur) (read_fields s' 0)
      else match digit_val c with
           | Some d => read_fields s' (cur * 10 + d)%Z
           | None => None
           end
  end.

Definition read_duration (s : string) : option Z :=
  match read_fields s 0 with
  | Some [h; m; x] => Some (h * 3600 + m * 60 + x)%Z
  | Some [m; x] => Some (m * 60 + x)%Z
  | _ => None
  end.








(* ------------------------------------------------------------------ *)
(** ** The queries of [DownloadManager] *)

(** [d[k]] for [k in d] *)
Fixpoint dict_get (k : string) (d : JobDict) : option Job :=
  match d with
  | [] => None
  | (k', v) :: d' => if String.eqb k k' then Some v else dict_get k d'
  end.

(** [DownloadManager.get_download_by_id] *)
Definition get_download_by_id (id : string) (m : Manager) : option Job :=
  match dict_get id (active_downloads m) with
  | Some j => Some j
  | None => List.find (fun j => String.eqb (job_id j) id) (download_queue m)
  end.

(** [DownloadManager.get_status] *)
Definition get_status (m : Manager) : string :=
  if negb (mgr_is_running m) then "idle"
  else if list_truthy (active_downloads m) then "downloading"
  else if list_truthy (download_queue m) then "queued"
  else "finishing".

(** ["total_downloads"] of [_emit_queue_stats] (also the sum of
    [get_download_count]). *)
Definition total_downloads (m : Manager) : nat :=
  length (active_downloads m) + length (download_queue m) + length (completed_downloads m).

(* ------------------------------------------------------------------ *)
(** ** The rule tables of [ContentBlocker] *)

(** [s.endswith(suffix)] *)
Fixpoint py_endswith (s suffix : string) : bool :=
  String.eqb s suffix ||
  match s with
  | String _ s' => py_endswith s' suffix
  | EmptyString => false
  end.

(** [sub in s] *)
Fixpoint py_contains (s sub : string) : bool :=
  String.prefix sub s ||
  match s with
  | String _ s' => py_contains s' sub
  | EmptyString => false
  end.

(** [BlockRule]; [created_date] is filled by [__post_init__]. *)
Record BlockRule : Type := mkBlockRule {
  rule_type : string;
  value : string;
  enabled : bool;
  case_sensitive : bool;
  description : string;
  created_date : string
}.

(** A [dict] of rules keyed by their value, in insertion order. *)
Definition RuleDict := list (string * BlockRule).

Definition rules_mem (k : string) (d : RuleDict) : bool :=
  existsb (fun kv => String.eqb k (fst kv)) d.

Fixpoint rules_get (k : string) (d : RuleDict) : option BlockRule :=
  match d with
  | [] => None
  | (k', r) :: d' => if String.eqb k k' then Some r else rules_get k d'
  end.

(** [del d[k]] *)
Fixpoint rules_del (k : string) (d : RuleDict) : RuleDict :=
  match d with
  | [] => []
  | (k', r) :: d' => if String.eqb k k' then d' else (k', r) :: rules_del k d'
  end.

(** [rule.enabled = not rule.enabled] on [d[k]] *)
Fixpoint rules_toggle (k : string) (d : RuleDict) : RuleDict :=
  match d with
  | [] => []
  | (k', r) :: d' =>
      if String.eqb k k' then
        (k', mkBlockRule (rule_type r) (value r) (negb (enabled r)) (case_sensitive r)
               (description r) (created_date r)) :: d'
      else (k', r) :: rules_toggle k d'
  end.

(** The state of a [ContentBlocker] the rule methods read and write.
    [_pattern_rules] holds [(compiled, rule)]; only the rule is kept,
    the compiled regex is determined by the key. [_whitelist] is a set. *)
Record Blocker : Type := mkBlocker {
  domain_rules : RuleDict;
  keyword_rules : RuleDict;
  pattern_rules : RuleDict;
  whitelist : list string;
  block_cache : BlockCache
}.

(** [_clear_cache] *)
Definition clear_cache (b : Blocker) : Blocker :=
  mkBlocker (domain_rules b) (keyword_rules b) (pattern_rules b) (whitelist b) [].

(** [_check_domain_rules] *)
Fixpoint check_domain_rules (rules : RuleDict) (domain : string) : BlockResult :=
  match rules with
  | [] => mkBlockResult false DOMAIN_BLOCKED None ""
  | (rule_domain, rule) :: rest =>
      if negb (enabled rule) then check_domain_rules rest domain
      else if String.eqb domain rule_domain || py_endswith domain ("." ++ rule_domain)
      then mkBlockResult true DOMAIN_BLOCKED (Some rule_domain) ("Domain blocked: " ++ rule_domain)
      else check_domain_rules rest domain
  end.

(** [_is_whitelisted] *)
Definition is_whitelisted (wl : list string) (domain url : string) : bool :=
  existsb (String.eqb domain) wl ||
  existsb (fun w => py_endswith domain ("." ++ w)) wl.

(** [_check_custom_rules]; [adult_in_query] is
    ["adult" in parse_qs(parsed_url.query)]. *)
Definition age_indicators : list string := ["18+"; "mature"; "restricted"; "age_gate"].

Definition check_custom_rules (adult_in_query : bool) (url : string) : BlockResult :=
  if adult_in_query then
    mkBlockResult true CUSTOM_RULE (Some "adult_query_param") "URL contains adult query parameter"
  else
    match List.find (fun i => py_contains (py_lower url) i) age_indicators with
    | Some i => mkBlockResult true AGE_RESTRICTED (Some i) ("Age restriction indicator: " ++ i)
    | None => mkBlockResult false CUSTOM_RULE None ""
    end.

(** The rule evaluations of a [ContentBlocker] in state [b]: whitelist,
    domain and custom rules as above; [urlparse], the keyword rules and
    the pattern rules (regular expressions) are given. *)
Definition blocker_checks (b : Blocker) (urlparse : string -> Result ParsedUrl)
    (keyword_check pattern_check : string -> Result BlockResult)
    (adult_in_query : ParsedUrl -> bool) : RuleChecks :=
  mkRuleChecks urlparse
    (fun d u => Ok (is_whitelisted (whitelist b) d u))
    (fun d => Ok (check_domain_rules (domain_rules b) d))
    keyword_check pattern_check
    (fun u p => Ok (check_custom_rules (adult_in_query p) u)).

(** [add_domain_rule] at the time [now_iso] ([datetime.now().isoformat()]). *)
Definition add_domain_rule (now_iso domain desc : string) (b : Blocker) : bool * Blocker :=
  let d := py_strip (py_lower domain) in
  if negb (String.eqb d "") && negb (rules_mem d (domain_rules b)) then
    let rule := mkBlockRule "domain" d true false
                  (if String.eqb desc "" then "User-added domain: " ++ d else desc) now_iso in
    (true, mkBlocker ((domain_rules b ++ [(d, rule)])%list) (keyword_rules b) (pattern_rules b)
             (whitelist b) [])
  else (false, b).

(** [add_keyword_rule] *)
Definition add_keyword_rule (now_iso keyword : string) (cs : bool) (desc : string)
    (b : Blocker) : bool * Blocker :=
  let k0 := py_strip keyword in
  let k := if cs then k0 else py_lower k0 in
  if negb (String.eqb k "") && negb (rules_mem k (keyword_rules b)) then
    let rule := mkBlockRule "keyword" k true cs
                  (if String.eqb desc "" then "User-added keyword: " ++ k else desc) now_iso in
    (true, mkBlocker (domain_rules b) ((keyword_rules b ++ [(k, rule)])%list) (pattern_rules b)
             (whitelist b) [])
  else (false, b).

(** [add_pattern_rule]; [compiles] says whether [re.compile] accepts the
    pattern (on [re.error] it returns [False]). *)
Definition add_pattern_rule (now_iso pattern desc : string) (compiles : bool)
    (b : Blocker) : bool * Blocker :=
  if negb compiles then (false, b)
  else if negb (rules_mem pattern (pattern_rules b)) then
    let rule := mkBlockRule "pattern" pattern true false
                  (if String.eqb desc "" then "User-added pattern: " ++ pattern else desc) now_iso in
    (true, mkBlocker (domain_rules b) (keyword_rules b) ((pattern_rules b ++ [(pattern, rule)])%list)
             (whitelist b) [])
  else (false, b).

(** [remove_rule] *)
Definition remove_rule (rtype v : string) (b : Blocker) : bool * Blocker :=
  if String.eqb rtype "domain" && rules_mem v (domain_rules b) then
    (true, mkBlocker (rules_del v (domain_rules b)) (keyword_rules b) (pattern_rules b)
             (whitelist b) [])
  else if String.eqb rtype "keyword" && rules_mem v (keyword_rules b) then
    (true, mkBlocker (domain_rules b) (rules_del v (keyword_rules b)) (pattern_rules b)
             (whitelist b) [])
  else if String.eqb rtype "pattern" && rules_mem v (pattern_rules b) then
    (true, mkBlocker (domain_rules b) (keyword_rules b) (rules_del v (pattern_rules b))
             (whitelist b) [])
  else (false, b).

(** [toggle_rule] *)
Definition toggle_rule (rtype v : string) (b : Blocker) : bool * Blocker :=
  if String.eqb rtype "domain" then
    match rules_get v (domain_rules b) with
    | Some _ => (true, mkBlocker (rules_toggle v (domain_rules b)) (keyword_rules b)
                         (pattern_rules b) (whitelist b) [])
    | None => (false, b)
    end
  else if String.eqb rtype "keyword" then
    match rules_get v (keyword_rules b) with
    | Some _ => (true, mkBlocker (domain_rules b) (rules_toggle v (keyword_rules b))
                         (pattern_rules b) (whitelist b) [])
    | None => (false, b)
    end
  else if String.eqb rtype "pattern" then
    match rules_get v (pattern_rules b) with
    | Some _ => (true, mkBlocker (domain_rules b) (keyword_rules b)
                         (rules_toggle v (pattern_rules b)) (whitelist b) [])
    | None => (false, b)
    end
  else (false, b).

(** [add_to_whitelist] *)
Definition add_to_whitelist (domain : string) (b : Blocker) : Blocker :=
  let d := py_strip (py_lower domain) in
  if String.eqb d "" then b
  else mkBlocker (domain_rules b) (keyword_rules b) (pattern_rules b)
         (if existsb (String.eqb d) (whitelist b) then whitelist b else (whitelist b ++ [d])%list) [].

(** [remove_from_whitelist] *)
Definition remove_from_whitelist (domain : string) (b : Blocker) : bool * Blocker :=
  let d := py_strip (py_lower domain) in
  if existsb (String.eqb d) (whitelist b) then
    (true, mkBlocker (domain_rules b) (keyword_rules b) (pattern_rules b)
             (List.filter (fun w => negb (String.eqb d w)) (whitelist b)) [])
  else (false, b).

(** A cache as a Python [dict] holds it: distinct keys, and
    [_cache_result] keeps it to [_cache_max_size] entries. *)
Definition cache_wf (c : BlockCache) : Prop :=
  List.NoDup (map fst c) /\ length c <= cache_max_size.

(** A blocker with one domain rule, [example.com], also whitelisted. *)
Definition example_blocker : Blocker :=
  mkBlocker [("example.com", mkBlockRule "domain" "example.com" true false "" "2025-01-01T00:00:00")]
            [] [] ["example.com"] [].

Definition example_checks : RuleChecks :=
  blocker_checks example_blocker (fun u => Ok (mkParsedUrl u ""))
    (fun _ => Ok (mkBlockResult false KEYWORD_BLOCKED None ""))
    (fun _ => Ok (mkBlockResult false PATTERN_BLOCKED None ""))
    (fun _ => false).

(** [c] only appends to [downloaded_files], and keeps it free of duplicates. *)
Definition keeps_files {A} (c : M A) : Prop :=
  forall t, (exists ext, downloaded_files (snd (c t)) = (downloaded_files t ++ ext)%list) /\
            (List.NoDup (downloaded_files t) -> List.NoDup (downloaded_files (snd (c t)))).

(** Every active entry is stored under its thread's [download_id]. *)
Definition active_keys_ok (m : Manager) : Prop :=
  forall k j, In (k, j) (active_downloads m) -> job_id j = k.

(* ================================================================== *)
(** * Properties of [DownloadThread] *)

Ltac unfold_m :=
  unfold mbind, M_bind, mret, M_ret, get_t, modify_t, raise, try_except, emit,
    emit_current_progress in *.

(** The hooks yt-dlp runs never include the thread's own callback. *)
Lemma run_progress_hooks_exclude_thread_callback :
  ~ In thread_progress_callback run_progress_hooks.
Proof. simpl. intros [H | []]. discriminate. Qed.

(** With an executor that returns a pair, [run] completes. *)
Lemma run_with_pair_completes :
  let t0 := new_dthread 1700000000000 "https://example.org/v" "/tmp/out" in
  let env := mkRunEnv true true None None false in
  status (current_progress
    (snd (run_with (fun _ _ _ => RetPair true ["/tmp/out/v.mp4"]) env t0))) = COMPLETED.
Proof. vm_compute. reflexivity. Qed.

(** ** C1 *)

(** Claim C1: after a successful download the job should be Completed
    with the downloaded paths.  [Downloader.download] returns a [bool],
    and the tuple assignment in [run] raises [TypeError] on it: for
    every file system, yt-dlp outcome and cancellation, [run] ends in
    FAILED and never emits a successful [download_completed]. *)
Theorem run_always_fails (env : RunEnv) (t : DThread) :
  status (current_progress (snd (run env t))) = FAILED /\
  exists sigs, emitted (snd (run env t)) = (emitted t ++ sigs)%list /\
    forall msg fs, ~ In (download_completed true msg fs) sigs.
Proof.
  destruct t as [u o i pa ca cp lu fs em].
  destruct env as [ex wr mk yd cd].
  unfold run, run_with, run_start, run_body, validate_inputs,
    setup_output_directory, call_executor, unpack_pair, handle_error,
    cleanup_temp_files; unfold_m; simpl.
  destruct (String.eqb u "") eqn:Hu; simpl.
  { split; [reflexivity|]. eexists; split; [rewrite <- !app_assoc; reflexivity|].
    intros msg fs0 Hin. simpl in Hin. intuition discriminate. }
  destruct (String.eqb o "") eqn:Ho; simpl.
  { split; [reflexivity|]. eexists; split; [rewrite <- !app_assoc; reflexivity|].
    intros msg fs0 Hin. simpl in Hin. intuition discriminate. }
  destruct (ex && negb wr); simpl.
  { split; [reflexivity|]. eexists; split; [rewrite <- !app_assoc; reflexivity|].
    intros msg fs0 Hin. simpl in Hin. intuition discriminate. }
  destruct mk; simpl.
  { split; [reflexivity|]. eexists; split; [rewrite <- !app_assoc; reflexivity|].
    intros msg fs0 Hin. simpl in Hin. intuition discriminate. }
  destruct cd; simpl;
  (split; [reflexivity|]; eexists; split; [rewrite <- !app_assoc; reflexivity|];
   intros msg fs0 Hin; simpl in Hin; intuition discriminate).
Qed.

(** ** Building blocks of the progress callback *)




(** ** C2 *)




Lemma string_length_app (a b : string) :
  String.length (a ++ b) = String.length a + String.length b.
Proof. induction a as [|c a IH]; simpl; [reflexivity | now rewrite IH]. Qed.

Lemma string_prefix_changes (a b : string) : a <> "" -> a ++ b <> b.
Proof.
  intros Ha E. apply (f_equal String.length) in E.
  rewrite string_length_app in E. destruct a; [congruence | simpl in E; lia].
Qed.

(** ** C5 *)

(** Claim C5: the ids returned by two submissions are distinct.  The id
    is built from [int(time.time())], whole seconds: two [add_download]
    calls within the same second return the same id. *)
Theorem add_download_same_second_same_id (now1 now2 : Z) (m : Manager)
    (Hsec : Z.quot now1 1000 = Z.quot now2 1000) :
  let '(id1, m1, _) := add_download now1 m in
  let '(id2, _, _) := add_download now2 m1 in
  id1 = id2.
Proof. unfold add_download, new_job, make_download_id. simpl. now rewrite Hsec. Qed.

Lemma add_download_same_second_same_id_witness :
  Z.quot 1700000000100 1000 = Z.quot 1700000000600 1000 /\
  (let '(id1, m1, _) := add_download 1700000000100 (new_manager 3) in
   let '(id2, _, _) := add_download 1700000000600 m1 in
   id1 = id2).
Proof.
  split; [reflexivity|].
  apply (add_download_same_second_same_id 1700000000100 1700000000600 (new_manager 3)).
  reflexivity.
Defined.

(** ** C6 *)

(** Claim C6: an invalid job fails without ever being Running.  With an
    empty URL, [run] first sets the status to DOWNLOADING and emits
    [download_started], and only then validates and fails. *)
Lemma empty_url_enters_downloading :
  let t := new_dthread 0 "" "/tmp/out" in
  let env := mkRunEnv true true None None false in
  status (current_progress (snd (run_start t))) = DOWNLOADING /\
  run env t = try_except (run_body (fun u o e => RetBool (downloader_download u o e)) env)
                run_handler (snd (run_start t)) /\
  hd_error (emitted (snd (run env t))) = Some (download_started "") /\
  status (current_progress (snd (run env t))) = FAILED.
Proof. vm_compute. repeat split. Qed.

(** Claim C6, as the code does it: when the URL or the output path is
    empty ([validation]) or the output directory exists and is not
    writable ([storage]), the executor is never called and the job ends
    FAILED with that error type; before validating, [run] has set the
    status to DOWNLOADING and emitted [download_started]. *)
Theorem invalid_spec_run (env : RunEnv) (t : DThread) (k : string)
    (H : invalid_spec_kind env t = Some k) :
  (forall ex1 ex2, run_with ex1 env t = run_with ex2 env t) /\
  status (current_progress (snd (run_start t))) = DOWNLOADING /\
  exists msg p,
    emitted (snd (run env t)) =
      (emitted t ++ [download_started (url t); progress_updated p;
                     error_occurred k msg; download_completed false msg []])%list /\
    status p = FAILED /\
    status (current_progress (snd (run env t))) = FAILED.
Proof.
  destruct t as [u o i pa ca cp lu fs em]. destruct env as [ex wr mk yd cd].
  unfold invalid_spec_kind in H; simpl in H.
  split; [|split; [reflexivity|]].
  - intros ex1 ex2.
    unfold run_with, run_start, run_body, validate_inputs; unfold_m; simpl.
    destruct (String.eqb u ""); [reflexivity|].
    destruct (String.eqb o ""); [reflexivity|].
    destruct (ex && negb wr); [reflexivity|discriminate].
  - unfold run, run_with, run_start, run_body, validate_inputs, handle_error, run_handler,
      cleanup_temp_files; unfold_m; simpl.
    destruct (String.eqb u "");
      [inversion H; subst; simpl; do 2 eexists; split; [rewrite <- ?app_assoc; reflexivity|auto]|].
    destruct (String.eqb o "");
      [inversion H; subst; simpl; do 2 eexists; split; [rewrite <- ?app_assoc; reflexivity|auto]|].
    destruct (ex && negb wr);
      [inversion H; subst; simpl; do 2 eexists; split; [rewrite <- ?app_assoc; reflexivity|auto]|].
    discriminate.
Qed.

Lemma invalid_spec_run_witness :
  invalid_spec_kind (mkRunEnv true true None None false) (new_dthread 0 "" "/tmp/out")
    = Some "validation" /\
  ((forall ex1 ex2,
      run_with ex1 (mkRunEnv true true None None false) (new_dthread 0 "" "/tmp/out")
      = run_with ex2 (mkRunEnv true true None None false) (new_dthread 0 "" "/tmp/out")) /\
   status (current_progress (snd (run_start (new_dthread 0 "" "/tmp/out")))) = DOWNLOADING /\
   exists msg p,
     emitted (snd (run (mkRunEnv true true None None false) (new_dthread 0 "" "/tmp/out"))) =
       (emitted (new_dthread 0 "" "/tmp/out") ++
        [download_started (url (new_dthread 0 "" "/tmp/out")); progress_updated p;
         error_occurred "validation" msg; download_completed false msg []])%list /\
     status p = FAILED /\
     status (current_progress
       (snd (run (mkRunEnv true true None None false) (new_dthread 0 "" "/tmp/out")))) = FAILED).
Proof.
  split; [reflexivity|].
  apply (invalid_spec_run (mkRunEnv true true None None false) (new_dthread 0 "" "/tmp/out")
           "validation").
  reflexivity.
Defined.

(** ** C7 *)

(** Claim C7: an executor ["error"] event with message ["timeout"]
    should leave the job Failed with kind [NetworkError] and message
    ["timeout"].  [_progress_callback] raises [DownloadNetworkError], but
    its own [except Exception] catches it and reports error type
    ["progress"] with the message prefixed by
    ["Progress callback error: "]. *)
Theorem error_callback_reported_as_progress_error (now : Z) (msg : string) (t : DThread)
    (Hge : (update_interval <= now - last_update_time t)%Z)
    (Hc : is_cancelled t = false) (Hp : is_paused t = false) :
  let t' := snd (progress_callback now
                   (mkData (Some "error") (Some msg) None None None None None None) t) in
  status (current_progress t') = FAILED /\
  error_message (current_progress t') = "Progress callback error: " ++ msg /\
  error_message (current_progress t') <> msg /\
  emitted t' =
    (emitted t ++ [progress_updated (current_progress t');
                   error_occurred "progress" ("Progress callback error: " ++ msg);
                   download_completed false ("Progress callback error: " ++ msg) []])%list.
Proof.
  assert (Hlt : (now - last_update_time t <? update_interval)%Z = false)
    by (apply Z.ltb_ge; exact Hge).
  destruct t as [u o i pa ca cp lu fs em]. simpl in *. subst pa ca.
  unfold progress_callback, dispatch_progress, handle_error, cleanup_temp_files;
    unfold_m; simpl in *. rewrite Hlt. simpl.
  repeat split.
  - exact (string_prefix_changes "Progress callback error: " msg ltac:(discriminate)).
  - rewrite <- !app_assoc. reflexivity.
Qed.

Lemma error_callback_reported_as_progress_error_witness :
  (update_interval <= 1000 - last_update_time (new_dthread 0 "https://example.org/v" "/tmp/out"))%Z /\
  is_cancelled (new_dthread 0 "https://example.org/v" "/tmp/out") = false /\
  is_paused (new_dthread 0 "https://example.org/v" "/tmp/out") = false /\
  (let t' := snd (progress_callback 1000
                   (mkData (Some "error") (Some "timeout") None None None None None None)
                   (new_dthread 0 "https://example.org/v" "/tmp/out")) in
   status (current_progress t') = FAILED /\
   error_message (current_progress t') = "Progress callback error: " ++ "timeout" /\
   error_message (current_progress t') <> "timeout" /\
   emitted t' =
     (emitted (new_dthread 0 "https://example.org/v" "/tmp/out") ++
      [progress_updated (current_progress t');
       error_occurred "progress" ("Progress callback error: " ++ "timeout");
       download_completed false ("Progress callback error: " ++ "timeout") []])%list).
Proof.
  split; [vm_compute; discriminate|]. split; [reflexivity|]. split; [reflexivity|].
  apply (error_callback_reported_as_progress_error 1000 "timeout"
           (new_dthread 0 "https://example.org/v" "/tmp/out")); [vm_compute; discriminate|reflexivity|reflexivity].
Defined.

(* ================================================================== *)
(** * Properties of [DownloadManager] *)

Lemma dict_set_length (k : string) (v : Job) (d : JobDict) :
  length (dict_set k v d) <= S (length d).
Proof.
  induction d as [|[k' v'] d IH]; simpl; [lia|].
  destruct (String.eqb k k'); simpl; lia.
Qed.

Lemma dict_del_length (k : string) (d : JobDict) : length (dict_del k d) <= length d.
Proof.
  induction d as [|[k' v'] d IH]; simpl; [lia|].
  destruct (String.eqb k k'); simpl; lia.
Qed.

Lemma delete_ids_length (ks : list string) (d : JobDict) :
  length (delete_ids ks d) <= length d.
Proof.
  unfold delete_ids. revert d. induction ks as [|k ks IH]; intros d; simpl; [lia|].
  etransitivity; [apply IH | apply dict_del_length].
Qed.

Lemma start_loop_shape (n : nat) (act : JobDict) (q : list Job) :
  let '(a, q', s) := start_loop n act q in
  q = (s ++ q')%list /\ length s <= n /\ length a <= length act + length s.
Proof.
  revert act q. induction n as [|n IH]; intros act q; simpl; [repeat split; lia|].
  destruct q as [|j q1]; simpl; [repeat split; lia|].
  specialize (IH (dict_set (job_id j) j act) q1).
  destruct (start_loop n (dict_set (job_id j) j act) q1) as [[a q'] s].
  destruct IH as (H1 & H2 & H3). subst q1. simpl.
  pose proof (dict_set_length (job_id j) j act). repeat split; lia.
Qed.

(** A dispatch pass only pops a prefix of the queue. *)
Lemma process_queue_prefix (alive : Job -> bool) (m : Manager) :
  download_queue m =
    (snd (process_download_queue alive m) ++ download_queue (fst (process_download_queue alive m)))%list.
Proof.
  unfold process_download_queue.
  match goal with |- context [start_loop ?n ?a ?q] =>
    pose proof (start_loop_shape n a q) as H; destruct (start_loop n a q) as [[a' q'] s] end.
  simpl. apply H.
Qed.

(** The counting facts of a dispatch pass. *)
Lemma process_queue_counts (alive : Job -> bool) (m : Manager) :
  let act1 := delete_ids (finished_ids alive (active_downloads m)) (active_downloads m) in
  let m' := fst (process_download_queue alive m) in
  let started := snd (process_download_queue alive m) in
  max_concurrent_downloads m' = max_concurrent_downloads m /\
  (Z.of_nat (length started) <=
     Z.max 0 (max_concurrent_downloads m - Z.of_nat (length act1)))%Z /\
  (Z.of_nat (length started) <=
     Z.max 0 (Z.min (max_concurrent_downloads m - Z.of_nat (length act1))
                    (Z.of_nat (length (download_queue m)))))%Z /\
  length (active_downloads m') <= length act1 + length started /\
  length act1 <= length (active_downloads m).
Proof.
  cbv zeta. unfold process_download_queue.
  match goal with |- context [start_loop ?n ?a ?q] =>
    pose proof (start_loop_shape n a q) as H; destruct (start_loop n a q) as [[a' q'] s] end.
  simpl. destruct H as (_ & H2 & H3).
  pose proof (delete_ids_length (finished_ids alive (active_downloads m)) (active_downloads m)).
  repeat split; lia.
Qed.

(** ** The dict operations on a dict with distinct keys *)

Lemma filter_all_true {A} (f : A -> bool) (l : list A) :
  (forall x, In x l -> f x = true) -> List.filter f l = l.
Proof.
  induction l as [|x l IH]; intros H; simpl; [reflexivity|].
  rewrite (H x (or_introl eq_refl)). f_equal. apply IH. intros y Hy. apply H. now right.
Qed.

Lemma filter_compose {A} (f g : A -> bool) (l : list A) :
  List.filter f (List.filter g l) = List.filter (fun x => g x && f x) l.
Proof.
  induction l as [|x l IH]; simpl; [reflexivity|].
  destruct (g x); simpl; [destruct (f x); simpl; now rewrite IH | exact IH].
Qed.

Lemma keys_filter_nodup (f : string * Job -> bool) (d : JobDict) :
  List.NoDup (map fst d) -> List.NoDup (map fst (List.filter f d)).
Proof.
  induction d as [|kv d IH]; intros H; simpl; [constructor|].
  inversion H as [|? ? Hn Hd]; subst.
  destruct (f kv); simpl; [|auto].
  constructor; [|auto]. intros Hin. apply Hn.
  apply in_map_iff in Hin as (kv' & E & Hin). apply filter_In in Hin as [Hin _].
  rewrite <- E. now apply in_map.
Qed.

Lemma keys_unique (d : JobDict) (x y : string * Job) :
  List.NoDup (map fst d) -> In x d -> In y d -> fst x = fst y -> x = y.
Proof.
  induction d as [|kv d IH]; intros H Hx Hy E; [destruct Hx|].
  inversion H as [|? ? Hn Hd]; subst.
  destruct Hx as [<-|Hx], Hy as [<-|Hy]; auto.
  - exfalso. apply Hn. rewrite E. now apply in_map.
  - exfalso. apply Hn. rewrite <- E. now apply in_map.
Qed.

Lemma dict_del_nodup (k : string) (d : JobDict) :
  List.NoDup (map fst d) ->
  dict_del k d = List.filter (fun kv => negb (String.eqb k (fst kv))) d.
Proof.
  induction d as [|[k' v'] d IH]; intros H; simpl; [reflexivity|].
  inversion H as [|? ? Hn Hd]; subst.
  destruct (String.eqb k k') eqn:E; simpl.
  - apply String.eqb_eq in E. subst k'. symmetry. apply filter_all_true.
    intros [k2 v2] Hin. simpl. apply negb_true_iff, String.eqb_neq.
    intros <-. apply Hn. change k with (fst (k, v2)). now apply in_map.
  - f_equal. now apply IH.
Qed.

Lemma delete_ids_nodup (ks : list string) (d : JobDict) :
  List.NoDup (map fst d) ->
  delete_ids ks d = List.filter (fun kv => negb (existsb (String.eqb (fst kv)) ks)) d.
Proof.
  unfold delete_ids. revert d. induction ks as [|k ks IH]; intros d H; simpl.
  - symmetry. now apply filter_all_true.
  - rewrite dict_del_nodup by exact H.
    rewrite IH by now apply keys_filter_nodup.
    rewrite filter_compose. apply filter_ext. intros [k' v']. simpl.
    rewrite String.eqb_sym. now destruct (String.eqb k' k).
Qed.

Lemma delete_finished_ids (alive : Job -> bool) (d : JobDict) :
  List.NoDup (map fst d) ->
  delete_ids (finished_ids alive d) d = List.filter (fun kv => alive (snd kv)) d.
Proof.
  intros H. rewrite delete_ids_nodup by exact H.
  apply filter_ext_in. intros kv Hin.
  destruct (alive (snd kv)) eqn:Ha; simpl.
  - apply negb_true_iff. destruct (existsb _ _) eqn:Ex; [|reflexivity].
    apply existsb_exists in Ex as (k & Hk & Ek). apply String.eqb_eq in Ek.
    unfold finished_ids in Hk. apply in_map_iff in Hk as (kv' & E' & Hk).
    apply filter_In in Hk as [Hk Hd].
    rewrite (keys_unique d kv kv' H Hin Hk) in Ha by congruence.
    rewrite Ha in Hd. discriminate.
  - apply negb_false_iff, existsb_exists. exists (fst kv). split.
    + unfold finished_ids. apply in_map, filter_In. split; [exact Hin|]. now rewrite Ha.
    + apply String.eqb_refl.
Qed.

Lemma keys_filter_perm (f : string * Job -> bool) (d : JobDict) :
  Permutation (map fst d)
    (map fst (List.filter f d) ++ map fst (List.filter (fun kv => negb (f kv)) d)).
Proof.
  induction d as [|kv d IH]; simpl; [constructor|].
  destruct (f kv); simpl.
  - constructor. exact IH.
  - rewrite <- Permutation_middle. constructor. exact IH.
Qed.

Lemma dict_set_fresh (k : string) (v : Job) (d : JobDict) :
  ~ In k (map fst d) -> dict_set k v d = (d ++ [(k, v)])%list.
Proof.
  induction d as [|[k' v'] d IH]; intros H; simpl; [reflexivity|].
  destruct (String.eqb k k') eqn:E.
  - apply String.eqb_eq in E. subst. exfalso. apply H. now left.
  - f_equal. apply IH. intros Hin. apply H. now right.
Qed.

Lemma start_loop_fresh (n : nat) (act : JobDict) (q : list Job) :
  List.NoDup (map fst act ++ map job_id q) ->
  let '(a, q', s) := start_loop n act q in
  a = (act ++ map (fun j => (job_id j, j)) s)%list /\ q = (s ++ q')%list.
Proof.
  revert act q. induction n as [|n IH]; intros act q H; simpl.
  { rewrite app_nil_r. auto. }
  destruct q as [|j q1]; simpl; [rewrite app_nil_r; auto|].
  assert (Hf : ~ In (job_id j) (map fst act)).
  { intros Hin. simpl in H. apply NoDup_remove_2 in H. apply H. apply in_or_app. now left. }
  rewrite (dict_set_fresh _ _ _ Hf).
  specialize (IH (act ++ [(job_id j, j)])%list q1).
  destruct (start_loop n (act ++ [(job_id j, j)])%list q1) as [[a q'] s].
  destruct IH as [-> ->].
  - rewrite map_app, <- app_assoc. simpl. exact H.
  - rewrite <- app_assoc. simpl. auto.
Qed.

(** A dispatch pass on distinct ids moves ids between the three
    collections, losing and duplicating none. *)
Lemma process_queue_partition (alive : Job -> bool) (m : Manager) :
  List.NoDup (mgr_ids m) ->
  Permutation (mgr_ids (fst (process_download_queue alive m))) (mgr_ids m).
Proof.
  intros H. unfold mgr_ids in *.
  assert (Hk : List.NoDup (map fst (active_downloads m))) by (eapply NoDup_app_remove_r; exact H).
  pose proof (keys_filter_perm (fun kv => alive (snd kv)) (active_downloads m)) as Hp.
  unfold process_download_queue.
  rewrite (delete_finished_ids alive _ Hk). unfold finished_ids.
  set (act1 := List.filter (fun kv => alive (snd kv)) (active_downloads m)) in *.
  set (dead := map fst (List.filter (fun kv => negb (alive (snd kv))) (active_downloads m))) in *.
  assert (H1 : List.NoDup (map fst act1 ++ map job_id (download_queue m))).
  { assert (Hq : Permutation (map fst (active_downloads m) ++ map job_id (download_queue m)
                               ++ completed_downloads m)
                  ((map fst act1 ++ map job_id (download_queue m)) ++ (dead ++ completed_downloads m))).
    { rewrite Hp. rewrite <- !app_assoc. apply Permutation_app_head.
      rewrite !app_assoc. apply Permutation_app_tail. apply Permutation_app_comm. }
    apply (Permutation_NoDup Hq) in H. eapply NoDup_app_remove_r. exact H. }
  match goal with |- context [start_loop ?n act1 (download_queue m)] =>
    pose proof (start_loop_fresh n act1 (download_queue m) H1) as Hs;
    destruct (start_loop n act1 (download_queue m)) as [[a q'] s] end.
  destruct Hs as [-> Eq]. simpl. rewrite Eq, Hp.
  rewrite map_app, map_map. simpl. rewrite map_app.
  fold dead.
  rewrite <- !app_assoc. apply Permutation_app_head.
  rewrite (Permutation_app_comm dead). rewrite <- !app_assoc. reflexivity.
Qed.

(** ** C3 *)

(** Claim C3: at most [max_concurrent_downloads] jobs are active in every
    reachable state.  [set_max_concurrent_downloads] lowers the bound
    without touching the active threads: after two jobs are dispatched
    with a bound of 2, lowering it to 1 leaves two active jobs, both
    still running. *)
Lemma set_max_below_active :
  let r := exec [OpAdd 1700000000000; OpAdd 1700000002000;
                 OpProcess (fun _ => true); OpSetMax 1] (new_manager 2) in
  reachable (fst (fst r)) /\
  length (snd (fst r)) = 2 /\
  max_concurrent_downloads (fst (fst r)) = 1%Z /\
  Z.of_nat (length (active_downloads (fst (fst r)))) = 2%Z.
Proof.
  cbv zeta. split.
  - exists [OpAdd 1700000000000; OpAdd 1700000002000; OpProcess (fun _ => true); OpSetMax 1], 2%Z.
    reflexivity.
  - vm_compute. repeat split; reflexivity.
Qed.

(** Claim C3, as the code does it: a dispatch pass starts at most
    [max_concurrent_downloads] minus the number of threads still running
    after the clean-up, so it never takes the active dict above the larger
    of the bound and its size before the pass; [set_max_concurrent_downloads]
    keeps the active dict as it is; and when the ids held are distinct a
    pass keeps them distinct and moves each one between the active dict,
    the queue and the completed history, losing none. *)
Theorem dispatch_bounded_partition (alive : Job -> bool) (m : Manager) :
  let act1 := delete_ids (finished_ids alive (active_downloads m)) (active_downloads m) in
  let m' := fst (process_download_queue alive m) in
  let started := snd (process_download_queue alive m) in
  (Z.of_nat (length started) <=
     Z.max 0 (max_concurrent_downloads m - Z.of_nat (length act1)))%Z /\
  (Z.of_nat (length (active_downloads m')) <=
     Z.max (max_concurrent_downloads m') (Z.of_nat (length (active_downloads m))))%Z /\
  (forall n, active_downloads (set_max_concurrent_downloads n m) = active_downloads m) /\
  (List.NoDup (mgr_ids m) ->
     List.NoDup (mgr_ids m') /\ Permutation (mgr_ids m') (mgr_ids m)).
Proof.
  cbv zeta.
  destruct (process_queue_counts alive m) as (Hm & Hs & _ & Ha & Hl).
  cbv zeta in *.
  split; [exact Hs|]. split; [|split].
  - rewrite Hm. lia.
  - intros n. unfold set_max_concurrent_downloads. now destruct (0 <? n)%Z.
  - intros H. pose proof (process_queue_partition alive m H) as Hp. split; [|exact Hp].
    apply (Permutation_NoDup (Permutation_sym Hp)). exact H.
Qed.

(** ** The queue across a run of calls *)

Lemma remove_download_queue_sublist (id : string) (m : Manager) :
  sublist (download_queue (snd (remove_download id m))) (download_queue m).
Proof. unfold remove_download. reflexivity. Qed.

Lemma cancel_all_queue_sublist (m : Manager) :
  sublist (download_queue (snd (cancel_all m))) (download_queue m).
Proof.
  unfold cancel_all. destruct (active_downloads m); simpl; [apply sublist_nil_l|reflexivity].
Qed.

Lemma set_max_queue (n : Z) (m : Manager) :
  download_queue (set_max_concurrent_downloads n m) = download_queue m.
Proof. unfold set_max_concurrent_downloads. now destruct (0 <? n)%Z. Qed.

(** The jobs started by a run of calls, followed by the queue it leaves,
    form a subsequence of the queue it starts from followed by the jobs it
    submits. *)
Lemma exec_sublist (ops : list MgrOp) (m : Manager) :
  let '(m', st, sub) := exec ops m in
  sublist (st ++ download_queue m')%list (download_queue m ++ sub)%list.
Proof.
  revert m. induction ops as [|op ops IH]; intros m; simpl.
  { rewrite !app_nil_r. reflexivity. }
  destruct op as [now|id| |n|alive].
  - specialize (IH (snd (fst (add_download now m)))). simpl in IH.
    destruct (exec ops _) as [[m2 st] sub]. rewrite <- app_assoc in IH. exact IH.
  - specialize (IH (snd (remove_download id m))).
    destruct (exec ops _) as [[m2 st] sub].
    etransitivity; [exact IH|]. apply sublist_app; [apply remove_download_queue_sublist|reflexivity].
  - specialize (IH (snd (cancel_all m))).
    destruct (exec ops _) as [[m2 st] sub].
    etransitivity; [exact IH|]. apply sublist_app; [apply cancel_all_queue_sublist|reflexivity].
  - specialize (IH (set_max_concurrent_downloads n m)). rewrite set_max_queue in IH.
    destruct (exec ops _) as [[m2 st] sub]. exact IH.
  - pose proof (process_queue_prefix alive m) as Hq.
    destruct (process_download_queue alive m) as [m1 st1]. simpl in Hq.
    specialize (IH m1). destruct (exec ops m1) as [[m2 st] sub].
    rewrite Hq, <- !app_assoc. apply sublist_app; [reflexivity|]. exact IH.
Qed.

(** ** C4 *)

(** Claim C4: dispatch takes jobs from the head of the queue only, in
    submission order.  A dispatch pass starts a prefix of the queue and
    leaves the rest of it, in its order, as the new queue; and over any run
    of calls (submissions, removals, [cancel_all], changes of the bound,
    dispatch passes whatever threads have finished) the jobs started, in
    the order they are started, followed by the queue left, are a
    subsequence of the initial queue followed by the submitted jobs. *)
Theorem dispatch_fifo (alive : Job -> bool) (m : Manager) (ops : list MgrOp) :
  download_queue m =
    (snd (process_download_queue alive m) ++
     download_queue (fst (process_download_queue alive m)))%list /\
  let '(m', st, sub) := exec ops m in
  sublist (st ++ download_queue m')%list (download_queue m ++ sub)%list.
Proof.
  split; [apply process_queue_prefix | apply exec_sublist].
Qed.

(** ** Reachable states *)

Lemma exec_cons (op : MgrOp) (ops : list MgrOp) (m : Manager) :
  fst (fst (exec (op :: ops) m)) = fst (fst (exec ops (op_state op m))) /\
  snd (exec (op :: ops) m) =
    ((match op with OpAdd now => [new_job now m] | _ => [] end) ++
     snd (exec ops (op_state op m)))%list.
Proof.
  destruct op as [now|id| |n|alive]; simpl; try (split; reflexivity).
  - destruct (exec ops _) as [[m2 st] sub]. split; reflexivity.
  - destruct (process_download_queue alive m) as [m1 st1].
    simpl. destruct (exec ops m1) as [[m2 st] sub]. split; reflexivity.
Qed.

Lemma op_state_next_obj (op : MgrOp) (m : Manager) :
  next_obj m <= next_obj (op_state op m).
Proof.
  destruct op as [now|id| |n|alive]; simpl.
  - lia.
  - unfold remove_download. simpl. lia.
  - unfold cancel_all. destruct (active_downloads m); simpl; lia.
  - unfold set_max_concurrent_downloads. destruct (0 <? n)%Z; simpl; lia.
  - unfold process_download_queue.
    destruct (start_loop _ _ _) as [[a q] s]. simpl. lia.
Qed.

(** The jobs a run of calls submits are allocated from [next_obj] on. *)
Lemma exec_submitted_fresh (ops : list MgrOp) (m : Manager) (j : Job) :
  In j (snd (exec ops m)) -> next_obj m <= job_obj j.
Proof.
  revert m. induction ops as [|op ops IH]; intros m H; [destruct H|].
  rewrite (proj2 (exec_cons op ops m)) in H. apply in_app_or in H as [H|H].
  - destruct op; simpl in H; try contradiction. destruct H as [<-|[]]. simpl. lia.
  - pose proof (op_state_next_obj op m). specialize (IH _ H). lia.
Qed.

Lemma sublist_In' {A} (l k : list A) (x : A) : sublist l k -> In x l -> In x k.
Proof.
  intros Hs. induction Hs as [|y l1 l2 Hs IH|y l1 l2 Hs IH]; simpl; intros H.
  - exact H.
  - destruct H as [->|H]; [now left|right; auto].
  - right. auto.
Qed.

Lemma sublist_NoDup' {A} (l k : list A) : sublist l k -> List.NoDup k -> List.NoDup l.
Proof.
  intros Hs. induction Hs as [|y l1 l2 Hs IH|y l1 l2 Hs IH]; intros H.
  - constructor.
  - inversion H as [|? ? Hn Hd]; subst. constructor; [|auto].
    intros Hin. apply Hn. exact (sublist_In' _ _ _ Hs Hin).
  - inversion H as [|? ? Hn Hd]; subst. auto.
Qed.

Lemma op_state_wf (op : MgrOp) (m : Manager) : mgr_wf m -> mgr_wf (op_state op m).
Proof.
  intros [Hd Hl]. destruct op as [now|id| |n|alive]; simpl.
  - unfold mgr_wf; simpl. split.
    + apply List.NoDup_app; [exact Hd|repeat constructor; intros []|].
      intros x Hx [<-|[]]. specialize (Hl _ Hx). unfold new_job in Hl. simpl in Hl. lia.
    + intros x Hx. apply in_app_or in Hx as [Hx|[<-|[]]]; [specialize (Hl _ Hx); lia|].
      simpl. lia.
  - split; [exact Hd|exact Hl].
  - unfold cancel_all. destruct (active_downloads m); [split; [constructor|intros x []]|].
    split; [exact Hd|exact Hl].
  - unfold mgr_wf. rewrite set_max_queue.
    unfold set_max_concurrent_downloads. destruct (0 <? n)%Z; simpl; auto.
  - pose proof (process_queue_prefix alive m) as Hq.
    destruct (process_download_queue alive m) as [m1 st1] eqn:E. simpl in Hq |- *.
    assert (Hn : next_obj m1 = next_obj m).
    { unfold process_download_queue in E. destruct (start_loop _ _ _) as [[a q] s].
      injection E as <- _. reflexivity. }
    rewrite Hq in Hd. split; [exact (NoDup_app_remove_l _ _ Hd)|].
    intros x Hx. rewrite Hn. apply Hl. rewrite Hq. apply in_or_app. now right.
Qed.

Lemma exec_wf (ops : list MgrOp) (m : Manager) :
  mgr_wf m -> mgr_wf (fst (fst (exec ops m))).
Proof.
  revert m. induction ops as [|op ops IH]; intros m H; [exact H|].
  rewrite (proj1 (exec_cons op ops m)). apply IH, op_state_wf, H.
Qed.

Lemma reachable_wf (m : Manager) : reachable m -> mgr_wf m.
Proof.
  intros (ops & n & ->). apply exec_wf. split; [constructor|intros j []].
Qed.

(** ** C8 *)

(** Claim C8: [remove_download id] should cancel an active job, or take
    a queued one out of the queue so that it never runs, and return
    whether the id was found.  In the code every call raises
    [TypeError] at [with QMutex(self._mutex)]: it returns neither [True]
    nor [False] and changes nothing, so the next dispatch pass is the
    same as without the call.  A job submitted to a fresh manager and
    then removed is still queued, and the next pass starts it. *)
Theorem remove_download_raises :
  (forall id m,
     fst (remove_download id m) = Raise qmutex_error /\
     snd (remove_download id m) = m /\
     forall alive, process_download_queue alive (snd (remove_download id m)) =
                   process_download_queue alive m) /\
  let m0 := snd (fst (add_download 1700000000000 (new_manager 3))) in
  map job_id (download_queue m0) = ["dl_1700000000"] /\
  map job_id (download_queue (snd (remove_download "dl_1700000000" m0))) = ["dl_1700000000"] /\
  map job_id (snd (process_download_queue (fun _ => true)
                     (snd (remove_download "dl_1700000000" m0)))) = ["dl_1700000000"].
Proof.
  split.
  - intros id m. unfold remove_download. simpl. auto.
  - vm_compute. auto.
Qed.

(** ** C9 *)

(** Claim C9: [is_blocked] fails closed.  When the normalised URL is not
    empty and not answered from the cache, and evaluating the rules (URL
    parsing, whitelist, domain, keyword, pattern or custom rules) raises,
    the result blocks the URL and names the error; the cache keeps that
    blocked result. *)
Theorem is_blocked_fail_closed (rc : RuleChecks) (now : Z) (url0 : string)
    (c : BlockCache) (e : PyExc)
    (Hne : py_lower (py_strip url0) <> "")
    (Hmiss : fst (get_cached_result now (py_lower (py_strip url0)) c) = None)
    (Hraise : blocking_rules rc (py_lower (py_strip url0)) = Raise e) :
  let '(r, c') := is_blocked rc now url0 c in
  br_is_blocked r = true /\
  br_details r = ("Blocked due to error: " ++ exc_str e)%string /\
  c' = cache_result now (py_lower (py_strip url0)) r
         (snd (get_cached_result now (py_lower (py_strip url0)) c)).
Proof.
  unfold is_blocked.
  apply String.eqb_neq in Hne. rewrite Hne.
  destruct (get_cached_result now (py_lower (py_strip url0)) c) as [[r0|] c1];
    simpl in Hmiss; [discriminate|].
  unfold perform_blocking_check. rewrite Hraise. simpl. auto.
Qed.

Lemma is_blocked_fail_closed_witness :
  let allowed := mkBlockResult false DOMAIN_BLOCKED None "" in
  let rc := mkRuleChecks (fun _ => Raise (OtherException "Invalid IPv6 URL"))
              (fun _ _ => Ok false) (fun _ => Ok allowed) (fun _ => Ok allowed)
              (fun _ => Ok allowed) (fun _ _ => Ok allowed) in
  br_is_blocked (fst (is_blocked rc 0 " HTTP://[::1 " [])) = true.
Proof.
  cbv zeta.
  pose proof (is_blocked_fail_closed
    (mkRuleChecks (fun _ => Raise (OtherException "Invalid IPv6 URL"))
       (fun _ _ => Ok false) (fun _ => Ok (mkBlockResult false DOMAIN_BLOCKED None ""))
       (fun _ => Ok (mkBlockResult false DOMAIN_BLOCKED None ""))
       (fun _ => Ok (mkBlockResult false DOMAIN_BLOCKED None ""))
       (fun _ _ => Ok (mkBlockResult false DOMAIN_BLOCKED None "")))
    0 " HTTP://[::1 " [] (OtherException "Invalid IPv6 URL")
    ltac:(vm_compute; discriminate) ltac:(vm_compute; reflexivity)
    ltac:(vm_compute; reflexivity)) as H.
  destruct (is_blocked _ _ _ _) as [r c']. exact (proj1 H).
Defined.

(** ** C10 *)

(** Once the manager thread has returned with the flag still set, no
    interleaving of submissions and manager steps dispatches again. *)
Lemma sys_stuck (evs : list SysEvent) (s : Sys) :
  sys_pc s = MIdle -> mgr_is_running (sys_mgr s) = true ->
  sys_pc (sys_run evs s) = MIdle /\
  mgr_is_running (sys_mgr (sys_run evs s)) = true /\
  active_downloads (sys_mgr (sys_run evs s)) = active_downloads (sys_mgr s) /\
  exists rest, download_queue (sys_mgr (sys_run evs s)) = (download_queue (sys_mgr s) ++ rest)%list.
Proof.
  revert s. induction evs as [|ev evs IH]; intros [m pc] Hpc Hrun; simpl in Hpc, Hrun; subst pc.
  - simpl. repeat split; auto. exists []. now rewrite app_nil_r.
  - unfold sys_run in *. simpl. destruct ev as [now|alive]; simpl.
    + unfold sys_add, add_download. simpl. rewrite Hrun. simpl.
      destruct (IH (mkSys (mkManager (max_concurrent_downloads m) (active_downloads m)
                    (download_queue m ++ [new_job now m]) (completed_downloads m) true
                    (S (next_obj m))) MIdle) eq_refl eq_refl) as (H1 & H2 & H3 & rest & H4).
      repeat split; auto. exists (new_job now m :: rest). rewrite H4. simpl.
      now rewrite <- app_assoc.
    + exact (IH (mkSys m MIdle) eq_refl Hrun).
Qed.

(** Claim C10: a dispatch pass that leaves the active dict and the queue
    empty clears the loop flag, so [is_active] is false; but a later
    submission does not always restart the loop.  When [add_download]
    runs after the manager thread has left its [while] loop and before
    [run] has returned, it sets the flag and calls [start()] on a thread
    that is still running, which does nothing; the thread then ends with
    the flag set.  From then on every [add_download] sees the flag set and
    calls no [start()]: the manager thread never runs again and the queue
    only grows. *)
Theorem stop_then_submit_race :
  (forall alive m,
     active_downloads (fst (process_download_queue alive m)) = [] ->
     download_queue (fst (process_download_queue alive m)) = [] ->
     is_active (fst (process_download_queue alive m)) = false) /\
  let s := sys_run [EvAdd 1700000000000; EvLoop (fun _ => true); EvLoop (fun _ => true);
                    EvLoop (fun _ => false); EvLoop (fun _ => false);
                    EvLoop (fun _ => false); EvAdd 1700000005000;
                    EvLoop (fun _ => false)]
             (mkSys (new_manager 3) MIdle) in
  sys_pc s = MIdle /\ is_active (sys_mgr s) = true /\
  map job_id (download_queue (sys_mgr s)) = ["dl_1700000005"] /\
  forall evs, let s' := sys_run evs s in
    sys_pc s' = MIdle /\
    active_downloads (sys_mgr s') = active_downloads (sys_mgr s) /\
    exists rest, download_queue (sys_mgr s') = (download_queue (sys_mgr s) ++ rest)%list.
Proof.
  split.
  - intros alive m. unfold process_download_queue.
    destruct (start_loop _ _ _) as [[a q] s]. simpl. intros -> ->. reflexivity.
  - cbv zeta. split; [vm_compute; reflexivity|]. split; [vm_compute; reflexivity|].
    split; [vm_compute; reflexivity|].
    intros evs.
    destruct (sys_stuck evs (sys_run [EvAdd 1700000000000; EvLoop (fun _ => true);
                    EvLoop (fun _ => true); EvLoop (fun _ => false); EvLoop (fun _ => false);
                    EvLoop (fun _ => false); EvAdd 1700000005000; EvLoop (fun _ => false)]
             (mkSys (new_manager 3) MIdle)) ltac:(vm_compute; reflexivity)
             ltac:(vm_compute; reflexivity)) as (H1 & _ & H3 & H4).
    auto.
Qed.

(* ================================================================== *)
(** * Properties of the rule tables of [ContentBlocker] *)

Lemma str_app_assoc (a b c : string) : (a ++ b) ++ c = a ++ (b ++ c).
Proof. induction a as [|x a IH]; simpl; [reflexivity | now rewrite IH]. Qed.

Lemma str_app_nil_r (a : string) : a ++ "" = a.
Proof. induction a as [|x a IH]; simpl; [reflexivity | now rewrite IH]. Qed.

Lemma py_endswith_eq (s suffix : string) :
  py_endswith s suffix =
  String.eqb s suffix || match s with String _ s' => py_endswith s' suffix | EmptyString => false end.
Proof. destruct s; reflexivity. Qed.

Lemma py_contains_eq (s sub : string) :
  py_contains s sub =
  String.prefix sub s || match s with String _ s' => py_contains s' sub | EmptyString => false end.
Proof. destruct s; reflexivity. Qed.

Lemma py_endswith_spec (s suffix : string) :
  py_endswith s suffix = true <-> exists p, s = p ++ suffix.
Proof.
  induction s as [|c s IH]; rewrite py_endswith_eq.
  - rewrite orb_false_r, String.eqb_eq. split.
    + intros <-. exists "". reflexivity.
    + intros [[|x p] H]; simpl in H; [exact H | discriminate].
  - rewrite orb_true_iff, String.eqb_eq, IH. split.
    + intros [<-|[p ->]].
      * exists "". reflexivity.
      * exists (String c p). reflexivity.
    + intros [[|x p] H]; simpl in H.
      * left. exact H.
      * right. injection H as -> ->. exists p. reflexivity.
Qed.

Lemma prefix_spec (a s : string) : String.prefix a s = true <-> exists q, s = a ++ q.
Proof.
  revert s. induction a as [|x a IH]; intros s; simpl.
  - split; [intros _; exists s; reflexivity | intros _; destruct s; reflexivity].
  - destruct s as [|y s]; simpl.
    + split; [discriminate | intros [q H]; discriminate].
    + destruct (ascii_dec x y) as [->|Hne]; simpl.
      * rewrite IH. split; intros [q H]; exists q; [now rewrite H | now injection H].
      * split; [discriminate | intros [q H]; injection H as H _; congruence].
Qed.

Lemma py_contains_spec (s sub : string) :
  py_contains s sub = true <-> exists p q, s = p ++ sub ++ q.
Proof.
  induction s as [|c s IH]; rewrite py_contains_eq.
  - rewrite orb_false_r, prefix_spec. split.
    + intros [q H]. exists "", q. exact H.
    + intros [[|x p] [q H]]; simpl in H; [exists q; exact H | discriminate].
  - rewrite orb_true_iff, prefix_spec, IH. split.
    + intros [[q H]|[p [q H]]].
      * exists "", q. exact H.
      * exists (String c p), q. now rewrite H.
    + intros [[|x p] [q H]]; simpl in H.
      * left. exists q. exact H.
      * right. injection H as -> ->. exists p, q. reflexivity.
Qed.

Lemma check_domain_rules_correct (rules : RuleDict) (domain : string) :
  (br_is_blocked (check_domain_rules rules domain) = true <->
   exists k r, In (k, r) rules /\ enabled r = true /\
               (domain = k \/ exists p, domain = p ++ "." ++ k)) /\
  (br_is_blocked (check_domain_rules rules domain) = true ->
   exists k r, In (k, r) rules /\ enabled r = true /\
     (domain = k \/ exists p, domain = p ++ "." ++ k) /\
     check_domain_rules rules domain =
       mkBlockResult true DOMAIN_BLOCKED (Some k) ("Domain blocked: " ++ k)).
Proof.
  induction rules as [|[k r] rules [IH1 IH2]]; simpl.
  - split; [split; [discriminate | intros (? & ? & [] & _)] | discriminate].
  - destruct (enabled r) eqn:He; simpl.
    + destruct (String.eqb domain k || py_endswith domain (String "." k)) eqn:Hm; simpl.
      * assert (Hd : domain = k \/ exists p, domain = p ++ "." ++ k).
        { apply orb_true_iff in Hm as [Hm|Hm].
          - left. now apply String.eqb_eq.
          - right. now apply py_endswith_spec. }
        split; [split; [intros _ | reflexivity] | intros _].
        -- exists k, r. split; [left; reflexivity|]. split; [exact He|exact Hd].
        -- exists k, r. split; [left; reflexivity|]. split; [exact He|]. split; [exact Hd|reflexivity].
      * split.
        -- rewrite IH1. split; intros (k' & r' & Hin & Hen & Hd).
           ++ exists k', r'. split; [right; exact Hin|]. auto.
           ++ destruct Hin as [Heq|Hin].
              ** injection Heq as -> ->. exfalso.
                 apply orb_false_iff in Hm as [Hm1 Hm2].
                 destruct Hd as [->|Hd].
                 --- now rewrite String.eqb_refl in Hm1.
                 --- apply py_endswith_spec in Hd. congruence.
              ** exists k', r'. auto.
        -- intros Hb. destruct (IH2 Hb) as (k' & r' & Hin & Hen & Hd & Heq).
           exists k', r'. split; [right; exact Hin|]. auto.
    + split.
      * rewrite IH1. split; intros (k' & r' & Hin & Hen & Hd).
        -- exists k', r'. split; [right; exact Hin|]. auto.
        -- destruct Hin as [Heq|Hin].
           ++ injection Heq as -> ->. congruence.
           ++ exists k', r'. auto.
      * intros Hb. destruct (IH2 Hb) as (k' & r' & Hin & Hen & Hd & Heq).
        exists k', r'. split; [right; exact Hin|]. auto.
Qed.

Lemma check_domain_rules_reason (rules : RuleDict) (domain : string) :
  br_reason (check_domain_rules rules domain) = DOMAIN_BLOCKED.
Proof.
  induction rules as [|[k r] rules IH]; simpl; [reflexivity|].
  destruct (enabled r); simpl; [|exact IH].
  destruct (_ || _); [reflexivity | exact IH].
Qed.

Lemma is_whitelisted_correct (wl : list string) (domain url : string) :
  is_whitelisted wl domain url = true <->
  exists w, In w wl /\ (domain = w \/ exists p, domain = p ++ "." ++ w).
Proof.
  unfold is_whitelisted. rewrite orb_true_iff, !existsb_exists. split.
  - intros [[w [Hin Hw]]|[w [Hin Hw]]]; exists w; split; auto.
    + left. now apply String.eqb_eq.
    + right. now apply py_endswith_spec.
  - intros [w [Hin [Hd|Hd]]].
    + left. exists w. split; [exact Hin|]. subst. apply String.eqb_refl.
    + right. exists w. split; [exact Hin|]. now apply py_endswith_spec.
Qed.

(** X1: [_check_domain_rules] blocks a domain exactly when some enabled
    domain rule [k] is equal to it or is a suffix of it after a dot
    (a subdomain); a blocking result names such a rule [k], enabled and
    matching the domain in that way, and the reason is always
    [DOMAIN_BLOCKED]. *)
Theorem check_domain_rules_matches (rules : RuleDict) (domain : string) :
  (br_is_blocked (check_domain_rules rules domain) = true <->
   exists k r, In (k, r) rules /\ enabled r = true /\
               (domain = k \/ exists p, domain = p ++ "." ++ k)) /\
  br_reason (check_domain_rules rules domain) = DOMAIN_BLOCKED /\
  (br_is_blocked (check_domain_rules rules domain) = true ->
   exists k r, In (k, r) rules /\ enabled r = true /\
     (domain = k \/ exists p, domain = p ++ "." ++ k) /\
     br_matched_rule (check_domain_rules rules domain) = Some k /\
     br_details (check_domain_rules rules domain) = "Domain blocked: " ++ k).
Proof.
  destruct (check_domain_rules_correct rules domain) as [H1 H2].
  split; [exact H1|]. split; [apply check_domain_rules_reason|].
  intros Hb. destruct (H2 Hb) as (k & r & Hin & Hen & Hd & ->).
  exists k, r. auto.
Qed.

(** X2: a whitelisted domain, or a subdomain of one, is let through by
    [_perform_blocking_check] with [WHITELIST_OVERRIDE], whatever the
    domain, keyword, pattern and custom rules say. *)
Theorem whitelist_overrides_rules (b : Blocker) (urlparse : string -> Result ParsedUrl)
    (kw pat : string -> Result BlockResult) (adult : ParsedUrl -> bool)
    (u : string) (p : ParsedUrl) (w : string) :
  urlparse u = Ok p ->
  In w (whitelist b) ->
  (strip_www (netloc p) = w \/ exists q, strip_www (netloc p) = q ++ "." ++ w) ->
  perform_blocking_check (blocker_checks b urlparse kw pat adult) u =
    mkBlockResult false WHITELIST_OVERRIDE None "URL is whitelisted".
Proof.
  intros Hp Hin Hd.
  assert (Hw : is_whitelisted (whitelist b) (strip_www (netloc p)) u = true)
    by (apply is_whitelisted_correct; exists w; auto).
  unfold perform_blocking_check, blocking_rules, blocker_checks. simpl.
  rewrite Hp. simpl. rewrite Hw. reflexivity.
Qed.

Lemma whitelist_overrides_rules_witness :
  perform_blocking_check
    (blocker_checks example_blocker (fun _ => Ok (mkParsedUrl "www.a.example.com" ""))
       (fun _ => Raise (TypeError "x")) (fun _ => Raise (TypeError "x")) (fun _ => true))
    "https://www.a.example.com/" =
  mkBlockResult false WHITELIST_OVERRIDE None "URL is whitelisted".
Proof.
  apply (whitelist_overrides_rules example_blocker (fun _ => Ok (mkParsedUrl "www.a.example.com" ""))
           (fun _ => Raise (TypeError "x")) (fun _ => Raise (TypeError "x")) (fun _ => true)
           "https://www.a.example.com/" (mkParsedUrl "www.a.example.com" "") "example.com").
  - reflexivity.
  - simpl. left. reflexivity.
  - right. exists "a". reflexivity.
Defined.

Lemma is_blocked_by_domain_rule (b : Blocker) (urlparse : string -> Result ParsedUrl)
    (kw pat : string -> Result BlockResult) (adult : ParsedUrl -> bool) (now : Z)
    (url0 : string) (p : ParsedUrl) :
  block_cache b = [] ->
  py_lower (py_strip url0) <> "" ->
  urlparse (py_lower (py_strip url0)) = Ok p ->
  is_whitelisted (whitelist b) (strip_www (netloc p)) (py_lower (py_strip url0)) = false ->
  br_is_blocked (check_domain_rules (domain_rules b) (strip_www (netloc p))) = true ->
  fst (is_blocked (blocker_checks b urlparse kw pat adult) now url0 (block_cache b)) =
    check_domain_rules (domain_rules b) (strip_www (netloc p)).
Proof.
  intros Hc Hne Hp Hw Hdr. rewrite Hc.
  unfold is_blocked.
  set (u := py_lower (py_strip url0)) in *.
  destruct (String.eqb_spec u "") as [He|_]; [contradiction|].
  cbn [get_cached_result cache_find].
  unfold perform_blocking_check, blocking_rules, blocker_checks.
  cbn [rc_urlparse rc_is_whitelisted rc_check_domain_rules].
  rewrite Hp. cbn [res_bind]. rewrite Hw. cbn [res_bind]. rewrite Hdr. reflexivity.
Qed.

(** X3: after [add_domain_rule] accepts a domain, [is_blocked] blocks
    (reason [DOMAIN_BLOCKED]) every URL whose host, without ["www."], is
    that normalised domain or a subdomain of it, unless the host is
    whitelisted: the cache was cleared, so no earlier decision is
    returned. *)
Theorem add_domain_rule_then_blocked (now_iso dom desc : string) (b b' : Blocker)
    (urlparse : string -> Result ParsedUrl) (kw pat : string -> Result BlockResult)
    (adult : ParsedUrl -> bool) (now : Z) (url0 : string) (p : ParsedUrl) :
  add_domain_rule now_iso dom desc b = (true, b') ->
  py_lower (py_strip url0) <> "" ->
  urlparse (py_lower (py_strip url0)) = Ok p ->
  (strip_www (netloc p) = py_strip (py_lower dom) \/
   exists q, strip_www (netloc p) = q ++ "." ++ py_strip (py_lower dom)) ->
  is_whitelisted (whitelist b) (strip_www (netloc p)) (py_lower (py_strip url0)) = false ->
  br_is_blocked (fst (is_blocked (blocker_checks b' urlparse kw pat adult) now url0
                        (block_cache b'))) = true /\
  br_reason (fst (is_blocked (blocker_checks b' urlparse kw pat adult) now url0
                    (block_cache b'))) = DOMAIN_BLOCKED.
Proof.
  intros Hadd Hne Hp Hd Hw.
  assert (Hdr : br_is_blocked (check_domain_rules (domain_rules b') (strip_www (netloc p))) = true
                /\ block_cache b' = [] /\ whitelist b' = whitelist b).
  { unfold add_domain_rule in Hadd.
    destruct (negb (String.eqb _ "") && negb (rules_mem _ (domain_rules b))); [|discriminate].
    injection Hadd as <-. cbn [domain_rules block_cache whitelist].
    split; [|split; reflexivity].
    apply check_domain_rules_correct. eexists _, _.
    split; [apply in_or_app; right; left; reflexivity|]. split; [reflexivity|exact Hd]. }
  destruct Hdr as (Hdr & Hc & Hwl).
  rewrite (is_blocked_by_domain_rule b' urlparse kw pat adult now url0 p Hc Hne Hp);
    [| rewrite Hwl; exact Hw | exact Hdr].
  split; [exact Hdr | apply check_domain_rules_reason].
Qed.

Lemma add_domain_rule_then_blocked_witness :
  let b := mkBlocker [] [] [] [] [(("https://video.example.com/watch")%string,
              (mkBlockResult false DOMAIN_BLOCKED None "URL allowed", 0%Z))] in
  let urlparse := fun _ : string => Ok (mkParsedUrl "video.example.com" "") in
  let r := fst (is_blocked
                  (blocker_checks (snd (add_domain_rule "2025-01-01T00:00:00" " Example.COM " "" b))
                     urlparse (fun _ => Ok (mkBlockResult false KEYWORD_BLOCKED None ""))
                     (fun _ => Ok (mkBlockResult false PATTERN_BLOCKED None ""))
                     (fun _ => false))
                  1000 "https://video.example.com/watch"
                  (block_cache (snd (add_domain_rule "2025-01-01T00:00:00" " Example.COM " "" b)))) in
  br_is_blocked r = true /\ br_reason r = DOMAIN_BLOCKED.
Proof.
  cbv zeta.
  apply (add_domain_rule_then_blocked "2025-01-01T00:00:00" " Example.COM " ""
           (mkBlocker [] [] [] [] [(("https://video.example.com/watch")%string,
              (mkBlockResult false DOMAIN_BLOCKED None "URL allowed", 0%Z))])
           _ (fun _ : string => Ok (mkParsedUrl "video.example.com" ""))
           _ _ _ 1000 "https://video.example.com/watch" (mkParsedUrl "video.example.com" "")).
  - vm_compute. reflexivity.
  - vm_compute. discriminate.
  - reflexivity.
  - right. exists "video". vm_compute. reflexivity.
  - vm_compute. reflexivity.
Defined.

Lemma rules_mem_app (k : string) (d e : RuleDict) :
  rules_mem k (d ++ e)%list = rules_mem k d || rules_mem k e.
Proof. unfold rules_mem. apply existsb_app. Qed.

Lemma rules_mem_last (k : string) (r : BlockRule) (d : RuleDict) :
  rules_mem k (d ++ [(k, r)])%list = true.
Proof. rewrite rules_mem_app. simpl. rewrite String.eqb_refl, orb_true_r. reflexivity. Qed.

Lemma rules_del_last (k : string) (r : BlockRule) (d : RuleDict) :
  rules_mem k d = false -> rules_del k (d ++ [(k, r)])%list = d.
Proof.
  induction d as [|[k' r'] d IH]; simpl.
  - rewrite String.eqb_refl. reflexivity.
  - unfold rules_mem in *. simpl. intros H. apply orb_false_iff in H as [H1 H2].
    simpl in H1. rewrite H1. f_equal. now apply IH.
Qed.

(** X4: a rule that [add_domain_rule], [add_keyword_rule] or
    [add_pattern_rule] accepted is removed again by [remove_rule] with the
    rule type and the key the add stored (the domain lowercased and
    stripped; the keyword stripped, and lowercased unless case
    sensitive; the pattern as given): [remove_rule] returns [True] and
    the rule tables and whitelist are those before the add. *)
Theorem add_then_remove_rule (now_iso desc : string) (b b' : Blocker) :
  (forall dom, add_domain_rule now_iso dom desc b = (true, b') ->
     remove_rule "domain" (py_strip (py_lower dom)) b' = (true, clear_cache b)) /\
  (forall kw cs, add_keyword_rule now_iso kw cs desc b = (true, b') ->
     remove_rule "keyword" (if cs then py_strip kw else py_lower (py_strip kw)) b' =
       (true, clear_cache b)) /\
  (forall pat compiles, add_pattern_rule now_iso pat desc compiles b = (true, b') ->
     remove_rule "pattern" pat b' = (true, clear_cache b)).
Proof.
  split; [|split].
  - intros dom H. unfold add_domain_rule in H.
    destruct (negb (String.eqb _ "")) eqn:H1; [|discriminate].
    destruct (rules_mem _ (domain_rules b)) eqn:H2; [discriminate|].
    injection H as <-. unfold remove_rule. cbn [domain_rules keyword_rules pattern_rules whitelist].
    rewrite rules_mem_last. simpl. rewrite rules_del_last by exact H2. reflexivity.
  - intros kw cs H. unfold add_keyword_rule in H.
    destruct (negb (String.eqb _ "")) eqn:H1; [|discriminate].
    destruct (rules_mem _ (keyword_rules b)) eqn:H2; [discriminate|].
    injection H as <-. unfold remove_rule. cbn [domain_rules keyword_rules pattern_rules whitelist].
    rewrite rules_mem_last. simpl. rewrite rules_del_last by exact H2. reflexivity.
  - intros pat compiles H. unfold add_pattern_rule in H.
    destruct compiles; [|discriminate].
    destruct (rules_mem pat (pattern_rules b)) eqn:H2; [discriminate|].
    injection H as <-. unfold remove_rule. cbn [domain_rules keyword_rules pattern_rules whitelist].
    rewrite rules_mem_last. simpl. rewrite rules_del_last by exact H2. reflexivity.
Qed.

(** X5: [add_domain_rule] compares domains after lowercasing and
    stripping: once a domain is added, adding it again in another case or
    with surrounding whitespace returns [False] and changes nothing (the
    cache is not cleared either). *)
Theorem add_domain_rule_duplicate (t1 t2 dom1 dom2 desc1 desc2 : string) (b b' : Blocker) :
  add_domain_rule t1 dom1 desc1 b = (true, b') ->
  py_strip (py_lower dom2) = py_strip (py_lower dom1) ->
  add_domain_rule t2 dom2 desc2 b' = (false, b').
Proof.
  intros H Heq. unfold add_domain_rule in *. rewrite Heq.
  destruct (negb (String.eqb _ "") && negb (rules_mem _ (domain_rules b))); [|discriminate].
  injection H as <-. cbn [domain_rules]. rewrite rules_mem_last.
  rewrite andb_false_r. reflexivity.
Qed.

Lemma add_domain_rule_duplicate_witness :
  add_domain_rule "2025-01-01T00:00:01" "  EXAMPLE.com" ""
    (snd (add_domain_rule "2025-01-01T00:00:00" "example.com" "" (mkBlocker [] [] [] [] []))) =
  (false, snd (add_domain_rule "2025-01-01T00:00:00" "example.com" "" (mkBlocker [] [] [] [] []))).
Proof.
  apply (add_domain_rule_duplicate "2025-01-01T00:00:00" "2025-01-01T00:00:01"
           "example.com" "  EXAMPLE.com" "" "" (mkBlocker [] [] [] [] [])).
  - vm_compute. reflexivity.
  - vm_compute. reflexivity.
Defined.

Lemma rules_toggle_involutive (v : string) (d : RuleDict) :
  rules_toggle v (rules_toggle v d) = d.
Proof.
  induction d as [|[k r] d IH]; simpl; [reflexivity|].
  destruct (String.eqb v k) eqn:E; simpl; rewrite E.
  - rewrite negb_involutive. destruct r; reflexivity.
  - now rewrite IH.
Qed.

Lemma rules_get_toggle (v k : string) (d : RuleDict) :
  rules_get k (rules_toggle v d) =
  if String.eqb k v then
    option_map (fun r => mkBlockRule (rule_type r) (value r) (negb (enabled r))
                           (case_sensitive r) (description r) (created_date r)) (rules_get k d)
  else rules_get k d.
Proof.
  induction d as [|[k' r] d IH]; simpl; [destruct (String.eqb k v); reflexivity|].
  destruct (String.eqb_spec v k') as [<-|Hne]; simpl.
  - destruct (String.eqb_spec k v) as [->|Hkv]; reflexivity.
  - rewrite IH. destruct (String.eqb_spec k v) as [->|Hkv].
    + apply String.eqb_neq in Hne. now rewrite Hne.
    + reflexivity.
Qed.

Lemma rules_get_toggle_some (v : string) (d : RuleDict) :
  rules_get v (rules_toggle v d) = None <-> rules_get v d = None.
Proof.
  rewrite rules_get_toggle, String.eqb_refl.
  destruct (rules_get v d); simpl; split; congruence.
Qed.

(** [rule.enabled = not rule.enabled] *)
Definition flip_rule (r : BlockRule) : BlockRule :=
  mkBlockRule (rule_type r) (value r) (negb (enabled r)) (case_sensitive r)
    (description r) (created_date r).

Lemma rules_get_toggle_at (v k : string) (d : RuleDict) (r : BlockRule) :
  rules_get v d = Some r ->
  rules_get k (rules_toggle v d) =
  if String.eqb k v then Some (flip_rule r) else rules_get k d.
Proof.
  intros Hr. rewrite rules_get_toggle.
  destruct (String.eqb_spec k v) as [->|_]; [now rewrite Hr | reflexivity].
Qed.

(** X6: [toggle_rule] on an existing rule of type ["domain"],
    ["keyword"] or ["pattern"] returns [True]; in the table of that type
    it flips the [enabled] flag of that rule and leaves every other key
    as it was, and the other two tables and the whitelist are unchanged.
    When it returns [False] nothing changes.  Toggling the same rule
    twice gives back the rule tables and the whitelist. *)
Theorem toggle_rule_flip_twice (t v : string) (b : Blocker) :
  (t = "domain" -> forall r, rules_get v (domain_rules b) = Some r ->
     let b1 := snd (toggle_rule t v b) in
     fst (toggle_rule t v b) = true /\
     (forall k, rules_get k (domain_rules b1) =
        if String.eqb k v then Some (flip_rule r) else rules_get k (domain_rules b)) /\
     keyword_rules b1 = keyword_rules b /\ pattern_rules b1 = pattern_rules b /\
     whitelist b1 = whitelist b) /\
  (t = "keyword" -> forall r, rules_get v (keyword_rules b) = Some r ->
     let b1 := snd (toggle_rule t v b) in
     fst (toggle_rule t v b) = true /\
     (forall k, rules_get k (keyword_rules b1) =
        if String.eqb k v then Some (flip_rule r) else rules_get k (keyword_rules b)) /\
     domain_rules b1 = domain_rules b /\ pattern_rules b1 = pattern_rules b /\
     whitelist b1 = whitelist b) /\
  (t = "pattern" -> forall r, rules_get v (pattern_rules b) = Some r ->
     let b1 := snd (toggle_rule t v b) in
     fst (toggle_rule t v b) = true /\
     (forall k, rules_get k (pattern_rules b1) =
        if String.eqb k v then Some (flip_rule r) else rules_get k (pattern_rules b)) /\
     domain_rules b1 = domain_rules b /\ keyword_rules b1 = keyword_rules b /\
     whitelist b1 = whitelist b) /\
  (fst (toggle_rule t v b) = false -> snd (toggle_rule t v b) = b) /\
  (let b2 := snd (toggle_rule t v (snd (toggle_rule t v b))) in
   fst (toggle_rule t v (snd (toggle_rule t v b))) = fst (toggle_rule t v b) /\
   domain_rules b2 = domain_rules b /\ keyword_rules b2 = keyword_rules b /\
   pattern_rules b2 = pattern_rules b /\ whitelist b2 = whitelist b).
Proof.
  split; [|split; [|split; [|split]]].
  - intros -> r Hr. cbv zeta. unfold toggle_rule. rewrite Hr. cbn.
    split; [reflexivity|]. split; [|auto]. intros k. now apply rules_get_toggle_at.
  - intros -> r Hr. cbv zeta. unfold toggle_rule. rewrite Hr. cbn.
    split; [reflexivity|]. split; [|auto]. intros k. now apply rules_get_toggle_at.
  - intros -> r Hr. cbv zeta. unfold toggle_rule. rewrite Hr. cbn.
    split; [reflexivity|]. split; [|auto]. intros k. now apply rules_get_toggle_at.
  - unfold toggle_rule.
    destruct (String.eqb t "domain"); [destruct (rules_get v (domain_rules b)); simpl;
      [discriminate|reflexivity]|].
    destruct (String.eqb t "keyword"); [destruct (rules_get v (keyword_rules b)); simpl;
      [discriminate|reflexivity]|].
    destruct (String.eqb t "pattern"); [destruct (rules_get v (pattern_rules b)); simpl;
      [discriminate|reflexivity]|].
    reflexivity.
  - cbv zeta. unfold toggle_rule.
    destruct (String.eqb t "domain").
    + destruct (rules_get v (domain_rules b)) eqn:E; cbn [snd fst domain_rules keyword_rules
        pattern_rules whitelist].
      * destruct (rules_get v (rules_toggle v (domain_rules b))) eqn:E2.
        -- rewrite rules_toggle_involutive. repeat split.
        -- apply (proj1 (rules_get_toggle_some _ _)) in E2. congruence.
      * rewrite E. repeat split.
    + destruct (String.eqb t "keyword").
      * destruct (rules_get v (keyword_rules b)) eqn:E; cbn [snd fst domain_rules keyword_rules
          pattern_rules whitelist].
        -- destruct (rules_get v (rules_toggle v (keyword_rules b))) eqn:E2.
           ++ rewrite rules_toggle_involutive. repeat split.
           ++ apply (proj1 (rules_get_toggle_some _ _)) in E2. congruence.
        -- rewrite E. repeat split.
      * destruct (String.eqb t "pattern").
        -- destruct (rules_get v (pattern_rules b)) eqn:E; cbn [snd fst domain_rules keyword_rules
             pattern_rules whitelist].
           ++ destruct (rules_get v (rules_toggle v (pattern_rules b))) eqn:E2.
              ** rewrite rules_toggle_involutive. repeat split.
              ** apply (proj1 (rules_get_toggle_some _ _)) in E2. congruence.
           ++ rewrite E. repeat split.
        -- repeat split.
Qed.

Lemma toggle_rule_flip_twice_witness :
  let r := mkBlockRule "keyword" "casino" true false "d" "2024-01-01" in
  let b := mkBlocker [] [("casino", r)] [] ["example.org"] [] in
  rules_get "casino" (keyword_rules b) = Some r /\
  fst (toggle_rule "keyword" "casino" b) = true /\
  rules_get "casino" (keyword_rules (snd (toggle_rule "keyword" "casino" b))) =
    Some (flip_rule r).
Proof.
  cbv zeta. split; [reflexivity|].
  destruct (proj1 (proj2 (toggle_rule_flip_twice "keyword" "casino"
     (mkBlocker [] [("casino", mkBlockRule "keyword" "casino" true false "d" "2024-01-01")] []
        ["example.org"] []))) eq_refl _ eq_refl) as (H1 & H2 & _).
  split; [exact H1|]. rewrite H2. reflexivity.
Defined.

Lemma filter_neq_last (d : string) (wl : list string) :
  existsb (String.eqb d) wl = false ->
  List.filter (fun w => negb (String.eqb d w)) (wl ++ [d])%list = wl.
Proof.
  induction wl as [|w wl IH]; simpl.
  - rewrite String.eqb_refl. reflexivity.
  - intros H. apply orb_false_iff in H as [H1 H2]. rewrite H1. simpl. f_equal. now apply IH.
Qed.

(** X7: the whitelist behaves as a set of normalised domains:
    [add_to_whitelist] twice is the same as once, and removing (with
    [remove_from_whitelist]) a domain just added to a whitelist that did
    not hold it returns [True] and gives back the old whitelist and rule
    tables. *)
Theorem whitelist_add_remove (dom : string) (b : Blocker) :
  add_to_whitelist dom (add_to_whitelist dom b) = add_to_whitelist dom b /\
  (py_strip (py_lower dom) <> "" ->
   existsb (String.eqb (py_strip (py_lower dom))) (whitelist b) = false ->
   remove_from_whitelist dom (add_to_whitelist dom b) = (true, clear_cache b)).
Proof.
  unfold add_to_whitelist, remove_from_whitelist.
  set (d := py_strip (py_lower dom)).
  split.
  - destruct (String.eqb_spec d "") as [->|Hne]; [reflexivity|].
    cbn [whitelist domain_rules keyword_rules pattern_rules].
    destruct (existsb (String.eqb d) (whitelist b)) eqn:E; rewrite ?E; [reflexivity|].
    rewrite existsb_app. simpl. rewrite String.eqb_refl, orb_true_r. reflexivity.
  - intros Hne Hnot.
    destruct (String.eqb_spec d "") as [He|_]; [contradiction|].
    cbn [whitelist domain_rules keyword_rules pattern_rules]. rewrite Hnot.
    rewrite existsb_app. simpl. rewrite String.eqb_refl, orb_true_r.
    rewrite filter_neq_last by exact Hnot. reflexivity.
Qed.

(* ------------------------------------------------------------------ *)
(** ** The decision cache of [is_blocked] *)

Lemma cache_find_set (u : string) (v : BlockResult * Z) (c : BlockCache) :
  cache_find u (cache_set u v c) = Some v.
Proof.
  induction c as [|[k v'] c IH]; simpl.
  - rewrite String.eqb_refl. reflexivity.
  - destruct (String.eqb u k) eqn:E; simpl; rewrite ?String.eqb_refl; [reflexivity|].
    rewrite E. exact IH.
Qed.

Lemma cache_set_keys (u : string) (v : BlockResult * Z) (c : BlockCache) :
  map fst (cache_set u v c) =
  if existsb (String.eqb u) (map fst c) then map fst c else (map fst c ++ [u])%list.
Proof.
  induction c as [|[k v'] c IH]; simpl; [reflexivity|].
  destruct (String.eqb_spec u k) as [->|Hne]; simpl; [reflexivity|].
  rewrite IH. destruct (existsb _ _); reflexivity.
Qed.

Lemma cache_set_wf (u : string) (v : BlockResult * Z) (c : BlockCache) :
  List.NoDup (map fst c) -> List.NoDup (map fst (cache_set u v c)) /\
  length (cache_set u v c) <= S (length c).
Proof.
  intros Hd. split.
  - rewrite cache_set_keys. destruct (existsb (String.eqb u) (map fst c)) eqn:E; [exact Hd|].
    apply List.NoDup_app; [exact Hd | repeat constructor; intros [] |].
    intros a Ha [Hua|[]]. subst a. assert (Hx : existsb (String.eqb u) (map fst c) = true).
    { apply existsb_exists. exists u. split; [exact Ha | apply String.eqb_refl]. }
    congruence.
  - rewrite <- (length_map fst (cache_set u v c)), <- (length_map fst c), cache_set_keys.
    destruct (existsb _ _); [lia|]. rewrite length_app. simpl. lia.
Qed.

Lemma filter_keys_nodup (f : string * (BlockResult * Z) -> bool) (c : BlockCache) :
  List.NoDup (map fst c) -> List.NoDup (map fst (List.filter f c)).
Proof.
  induction c as [|[k v] c IH]; simpl; intros Hd; [constructor|].
  inversion Hd as [|? ? Hnin Hd']; subst.
  destruct (f (k, v)); simpl; [|now apply IH].
  constructor; [|now apply IH].
  intros Hin. apply Hnin. apply in_map_iff in Hin as [[k' v'] [Hk Hin]].
  simpl in Hk. subst k'. apply filter_In in Hin as [Hin _].
  apply in_map_iff. exists (k, v'). auto.
Qed.

Lemma filter_length_lt {A} (f : A -> bool) (l : list A) (x : A) :
  In x l -> f x = false -> length (List.filter f l) < length l.
Proof.
  induction l as [|y l IH]; simpl; [intros []|].
  intros [->|Hin] Hf.
  - rewrite Hf. pose proof (List.filter_length_le f l). lia.
  - destruct (f y); simpl; specialize (IH Hin Hf); [lia|].
    pose proof (List.filter_length_le f l). lia.
Qed.

Lemma insert_by_ts_perm (kv : string * (BlockResult * Z)) (c : BlockCache) :
  Permutation (insert_by_ts kv c) (kv :: c).
Proof.
  induction c as [|kv' c IH]; simpl; [reflexivity|].
  destruct (_ <=? _)%Z; [|reflexivity].
  rewrite IH. apply perm_swap.
Qed.

Lemma sort_by_ts_perm (c : BlockCache) : Permutation (sort_by_ts c) c.
Proof.
  unfold sort_by_ts.
  assert (H : forall acc, Permutation (fold_left (fun acc kv => insert_by_ts kv acc) c acc)
                                      (c ++ acc)%list).
  { induction c as [|kv c IH]; intros acc; simpl; [reflexivity|].
    rewrite IH, insert_by_ts_perm. apply Permutation_sym, Permutation_middle. }
  rewrite H, app_nil_r. reflexivity.
Qed.

Lemma cache_result_wf (now : Z) (u : string) (r : BlockResult) (c : BlockCache) :
  cache_wf c -> cache_wf (cache_result now u r c).
Proof.
  intros [Hd Hl]. unfold cache_result.
  cbv zeta. match goal with |- cache_wf (cache_set _ _ ?x) => set (c1 := x) end.
  assert (H1 : List.NoDup (map fst c1) /\ length c1 < cache_max_size).
  { subst c1. destruct (Nat.leb_spec cache_max_size (length c)) as [Hge|Hlt]; [|auto].
    split; [now apply filter_keys_nodup|].
    destruct (sort_by_ts c) as [|kv rest] eqn:Es.
    - pose proof (Permutation_length (sort_by_ts_perm c)) as Hp. rewrite Es in Hp.
      simpl in Hp. unfold cache_max_size in *. lia.
    - assert (Hin : In kv c).
      { apply (Permutation_in _ (sort_by_ts_perm c)). rewrite Es. left. reflexivity. }
      pose proof (filter_length_lt
                    (fun kv0 => negb (existsb (String.eqb (fst kv0))
                                        (map fst (firstn 100 (kv :: rest))))) c kv Hin) as Hlt.
      simpl in Hlt. rewrite String.eqb_refl in Hlt. simpl in Hlt. specialize (Hlt eq_refl).
      simpl. lia. }
  destruct H1 as [Hd1 Hl1].
  destruct (cache_set_wf u (r, now) c1 Hd1) as [Hd2 Hl2].
  split; [exact Hd2 | lia].
Qed.

Lemma get_cached_result_wf (now : Z) (u : string) (c : BlockCache) :
  cache_wf c -> cache_wf (snd (get_cached_result now u c)).
Proof.
  intros [Hd Hl]. unfold get_cached_result.
  destruct (cache_find u c) as [[r ts]|]; [|split; assumption].
  destruct (cache_ttl <? now - ts)%Z; simpl; [|split; assumption].
  split; [now apply filter_keys_nodup|].
  pose proof (List.filter_length_le (fun kv => negb (String.eqb u (fst kv))) c). unfold cache_del. lia.
Qed.

(** X8: [is_blocked] keeps its cache a well-formed dictionary: if the
    cache has distinct keys and at most [_cache_max_size] (1000) entries
    before a check, it still does after it (eviction removes at least one
    entry when the cache is full). *)
Theorem is_blocked_cache_wf (rc : RuleChecks) (now : Z) (url0 : string) (c : BlockCache) :
  cache_wf c -> cache_wf (snd (is_blocked rc now url0 c)).
Proof.
  intros Hc. unfold is_blocked.
  destruct (String.eqb _ ""); [exact Hc|].
  pose proof (get_cached_result_wf now (py_lower (py_strip url0)) c Hc) as H1.
  destruct (get_cached_result now _ c) as [[r|] c1]; simpl in *; [exact H1|].
  now apply cache_result_wf.
Qed.

Lemma is_blocked_cache_wf_witness :
  cache_wf [] /\ cache_wf (snd (is_blocked example_checks 0 "example.com" [])).
Proof.
  split.
  - split; [constructor | unfold cache_max_size; simpl; lia].
  - apply (is_blocked_cache_wf example_checks 0 "example.com" []).
    split; [constructor | unfold cache_max_size; simpl; lia].
Defined.

Lemma cache_result_find (now : Z) (u : string) (r : BlockResult) (c : BlockCache) :
  cache_find u (cache_result now u r c) = Some (r, now).
Proof. unfold cache_result. apply cache_find_set. Qed.

(** X9: a decision [is_blocked] computed (not answered from the cache) is
    stored with its time: a later check of the same URL, whatever the
    rules are by then, returns that decision unchanged and leaves the
    cache alone as long as no more than [_cache_ttl] (one hour, in ms)
    has passed; after that the URL is checked against the rules again. *)
Theorem is_blocked_cached_within_ttl (rc : RuleChecks) (now : Z) (url0 : string)
    (c : BlockCache) :
  py_lower (py_strip url0) <> "" ->
  fst (get_cached_result now (py_lower (py_strip url0)) c) = None ->
  (forall rc' now', (now' - now <= cache_ttl)%Z ->
     is_blocked rc' now' url0 (snd (is_blocked rc now url0 c)) = is_blocked rc now url0 c) /\
  (forall rc' now', (cache_ttl < now' - now)%Z ->
     fst (is_blocked rc' now' url0 (snd (is_blocked rc now url0 c))) =
     perform_blocking_check rc' (py_lower (py_strip url0))).
Proof.
  intros Hne Hmiss.
  assert (Hb : exists r c1, is_blocked rc now url0 c =
                 (r, cache_result now (py_lower (py_strip url0)) r c1)).
  { unfold is_blocked.
    destruct (String.eqb_spec (py_lower (py_strip url0)) "") as [He|_]; [contradiction|].
    destruct (get_cached_result now _ c) as [[r|] c1]; [discriminate|].
    eexists _, _. reflexivity. }
  destruct Hb as (r & c1 & ->). cbn [fst snd].
  set (u := py_lower (py_strip url0)) in *.
  split; intros rc' now' Ht; unfold is_blocked; fold u;
    (destruct (String.eqb_spec u "") as [He|_]; [contradiction|]);
    unfold get_cached_result; rewrite cache_result_find.
  - destruct (Z.ltb_spec cache_ttl (now' - now)) as [Hlt|_]; [lia|reflexivity].
  - destruct (Z.ltb_spec cache_ttl (now' - now)) as [_|Hge]; [reflexivity|lia].
Qed.

Lemma is_blocked_cached_within_ttl_witness :
  let r := is_blocked example_checks 0 "https://a.example.org/" [] in
  py_lower (py_strip "https://a.example.org/") <> "" /\
  fst (get_cached_result 0 (py_lower (py_strip "https://a.example.org/")) []) = None /\
  is_blocked example_checks 1800000 "https://a.example.org/" (snd r) = r.
Proof.
  cbv zeta.
  split; [vm_compute; discriminate|]. split; [reflexivity|].
  apply (proj1 (is_blocked_cached_within_ttl example_checks 0 "https://a.example.org/" []
                  ltac:(vm_compute; discriminate) eq_refl)).
  vm_compute. discriminate.
Defined.

(* ------------------------------------------------------------------ *)
(** ** [_check_custom_rules] *)

(** X10: without an ["adult"] query parameter, [_check_custom_rules]
    blocks a URL, with reason [AGE_RESTRICTED], exactly when one of
    ["18+"], ["mature"], ["restricted"], ["age_gate"] occurs anywhere in
    the lowercased URL, also inside a longer word (so
    ["https://example.com/immature-plants"] is blocked). *)
Theorem check_custom_rules_age (url : string) :
  (br_is_blocked (check_custom_rules false url) = true <->
   exists i p q, In i age_indicators /\ py_lower url = p ++ i ++ q) /\
  (br_is_blocked (check_custom_rules false url) = true ->
   br_reason (check_custom_rules false url) = AGE_RESTRICTED).
Proof.
  unfold check_custom_rules.
  destruct (List.find (fun i => py_contains (py_lower url) i) age_indicators) as [i|] eqn:E.
  - apply find_some in E as [Hin Hc]. apply py_contains_spec in Hc as (p & q & Hpq).
    split; [split; [intros _; exists i, p, q; auto | reflexivity] | reflexivity].
  - split; [split; [discriminate|] | discriminate].
    intros (i & p & q & Hin & Hpq).
    pose proof (find_none _ _ E i Hin) as Hc. simpl in Hc.
    assert (Hc' : py_contains (py_lower url) i = true) by (apply py_contains_spec; eauto).
    congruence.
Qed.

Lemma check_custom_rules_age_witness :
  br_is_blocked (check_custom_rules false "https://example.com/Immature-plants") = true.
Proof.
  apply (proj1 (check_custom_rules_age "https://example.com/Immature-plants")).
  exists "mature", "https://example.com/im", "-plants". split; [simpl; tauto|].
  vm_compute. reflexivity.
Defined.

(* ================================================================== *)
(** * Further properties of [DownloadThread] *)





Lemma keeps_files_bind {A B} (c : M A) (k : A -> M B) :
  keeps_files c -> (forall a, keeps_files (k a)) -> keeps_files (mbind k c).
Proof.
  intros Hc Hk t. unfold mbind, M_bind.
  destruct (Hc t) as [[e1 He1] Hn1].
  destruct (c t) as [[a|ex] t1] eqn:E; simpl in *.
  - destruct (Hk a t1) as [[e2 He2] Hn2]. split.
    + exists (e1 ++ e2)%list. rewrite He2, He1, app_assoc. reflexivity.
    + auto.
  - split; [exists e1; exact He1 | exact Hn1].
Qed.

Lemma keeps_files_frame {A} (c : M A) :
  (forall t, downloaded_files (snd (c t)) = downloaded_files t) -> keeps_files c.
Proof. intros H t. rewrite H. split; [exists []; symmetry; apply app_nil_r | auto]. Qed.

Lemma keeps_files_try {A} (c : M A) (h : PyExc -> M A) :
  keeps_files c -> (forall e, keeps_files (h e)) -> keeps_files (try_except c h).
Proof.
  intros Hc Hh t. unfold try_except.
  destruct (Hc t) as [[e1 He1] Hn1].
  destruct (c t) as [[a|ex] t1] eqn:E; simpl in *.
  - split; [exists e1; exact He1 | exact Hn1].
  - destruct (Hh ex t1) as [[e2 He2] Hn2]. split.
    + exists (e1 ++ e2)%list. rewrite He2, He1, app_assoc. reflexivity.
    + auto.
Qed.

Ltac keeps_files_step :=
  first
  [ apply keeps_files_bind; intros
  | apply keeps_files_try; intros
  | apply keeps_files_frame; intros; reflexivity
  | match goal with |- keeps_files (if ?b then _ else _) => destruct b end
  | match goal with |- keeps_files (match ?x with _ => _ end) => destruct x end ].

Lemma keeps_files_handle_error (k msg : string) : keeps_files (handle_error k msg).
Proof.
  unfold handle_error, cleanup_temp_files, emit_current_progress, emit, get_t, modify_t, mret, M_ret.
  repeat keeps_files_step.
Qed.

Lemma keeps_files_finished (data : ProgressData) : keeps_files (handle_finished_progress data).
Proof.
  intros t. destruct t. unfold handle_finished_progress; unfold_m. cbv zeta. simpl.
  destruct (negb _ && negb (existsb _ downloaded_files0)) eqn:E; simpl.
  - split; [eexists; reflexivity|]. intros Hd.
    apply andb_true_iff in E as [_ E]. apply negb_true_iff in E.
    apply List.NoDup_app; [exact Hd | repeat constructor; intros [] |].
    intros a Ha [<-|[]].
    assert (Hx : existsb (String.eqb (get_default "" (pd_filename data))) downloaded_files0 = true)
      by (apply existsb_exists; eexists; split; [exact Ha | apply String.eqb_refl]).
    congruence.
  - split; [exists []; symmetry; apply app_nil_r | auto].
Qed.

Lemma keeps_files_downloading (data : ProgressData) : keeps_files (handle_downloading_progress data).
Proof.
  unfold handle_downloading_progress, emit_current_progress, emit, get_t, modify_t. cbv zeta.
  repeat keeps_files_step.
Qed.

Lemma keeps_files_dispatch (now : Z) (data : ProgressData) : keeps_files (dispatch_progress now data).
Proof.
  unfold dispatch_progress. cbv zeta.
  apply keeps_files_bind; [|intros; apply keeps_files_frame; reflexivity].
  destruct (String.eqb _ "downloading"); [apply keeps_files_downloading|].
  destruct (String.eqb _ "finished"); [apply keeps_files_finished|].
  destruct (String.eqb _ "error"); apply keeps_files_frame; reflexivity.
Qed.

Lemma keeps_files_progress_callback (now : Z) (data : ProgressData) :
  keeps_files (progress_callback now data).
Proof.
  unfold progress_callback.
  apply keeps_files_bind; [apply keeps_files_frame; reflexivity|]. intros t0.
  destruct (_ <? _)%Z; [apply keeps_files_frame; reflexivity|].
  apply keeps_files_try; [|intros; apply keeps_files_handle_error].
  apply keeps_files_bind; [apply keeps_files_frame; reflexivity|]. intros t1.
  destruct (is_cancelled t1); [apply keeps_files_frame; reflexivity|].
  destruct (is_paused t1); [|apply keeps_files_dispatch].
  apply keeps_files_bind; [apply keeps_files_frame; reflexivity|]. intros _.
  apply keeps_files_bind; [apply keeps_files_frame; reflexivity|]. intros t2.
  destruct (is_cancelled t2); [apply keeps_files_frame; reflexivity|apply keeps_files_dispatch].
Qed.

(** X12: [_downloaded_files] never gets a duplicate and never loses an
    entry: a call of [_progress_callback], whatever its data, timing and
    pause handling, only appends to the list and keeps it free of
    duplicates; and a ["finished"] report with a non-empty filename
    leaves that filename in the list, sets the progress to 100 and does
    not change the status. *)
Theorem downloaded_files_no_duplicates (now : Z) (data : ProgressData) (t : DThread) :
  List.NoDup (downloaded_files t) ->
  (List.NoDup (downloaded_files (snd (progress_callback now data t))) /\
   exists ext, downloaded_files (snd (progress_callback now data t)) =
               (downloaded_files t ++ ext)%list) /\
  (get_default "" (pd_filename data) <> "" ->
   In (get_default "" (pd_filename data)) (downloaded_files (snd (handle_finished_progress data t))) /\
   progress (current_progress (snd (handle_finished_progress data t))) = 100%Q /\
   status (current_progress (snd (handle_finished_progress data t))) = status (current_progress t)).
Proof.
  intros Hd. split.
  - destruct (keeps_files_progress_callback now data t) as [He Hn]. auto.
  - intros Hne. destruct t. unfold handle_finished_progress; unfold_m. cbv zeta. simpl.
    destruct (String.eqb_spec (get_default "" (pd_filename data)) "") as [He|_]; [contradiction|].
    simpl. destruct (existsb _ downloaded_files0) eqn:E; simpl.
    + split; [|split; reflexivity].
      apply existsb_exists in E as [x [Hx Heq]]. apply String.eqb_eq in Heq. now subst.
    + split; [|split; reflexivity]. apply in_or_app. right. left. reflexivity.
Qed.

Lemma downloaded_files_no_duplicates_witness :
  List.NoDup (downloaded_files (new_dthread 0 "https://example.com/v" "/tmp")) /\
  List.NoDup (downloaded_files (snd (progress_callback 1000
     (mkData (Some "finished") None (Some "/tmp/v.mp4") None None None None None)
     (new_dthread 0 "https://example.com/v" "/tmp")))).
Proof.
  split; [constructor|].
  apply (downloaded_files_no_duplicates 1000
     (mkData (Some "finished") None (Some "/tmp/v.mp4") None None None None None)
     (new_dthread 0 "https://example.com/v" "/tmp")).
  constructor.
Defined.

Lemma progress_callback_flags (now : Z) (data : ProgressData) (t : DThread) :
  is_paused (snd (progress_callback now data t)) = is_paused t /\
  is_cancelled (snd (progress_callback now data t)) = is_cancelled t.
Proof.
  destruct t as [u o i pa ca cp lu fs em].
  unfold progress_callback, dispatch_progress, handle_downloading_progress,
    handle_finished_progress, handle_error, cleanup_temp_files, with_new_qmutex; unfold_m.
  cbv zeta. cbn [last_update_time is_cancelled is_paused].
  repeat match goal with
         | |- context [if ?b then _ else _] => destruct b
         | |- context [match ?x with Some _ => _ | None => _ end] => destruct x
         end; simpl; auto.
Qed.

(** X13: [pause], [resume] and [cancel] of a [DownloadThread] always
    raise [TypeError] and leave the thread as it was (no flag, no status
    change, no signal).  So on a thread created by [__init__], whatever
    control calls and progress callbacks it receives, [_is_paused] and
    [_is_cancelled] stay [False]: the pause and cancel branches of
    [_progress_callback] and the cancellation check of [run] are never
    taken. *)
Theorem control_calls_never_set_flags :
  (forall t, pause t = (Raise qmutex_error, t) /\ resume t = (Raise qmutex_error, t) /\
             cancel t = (Raise qmutex_error, t)) /\
  forall now_ms u o cs,
    is_paused (run_calls cs (new_dthread now_ms u o)) = false /\
    is_cancelled (run_calls cs (new_dthread now_ms u o)) = false.
Proof.
  split; [intros t; repeat split|].
  intros now_ms u o cs.
  assert (H : forall t, is_paused t = false -> is_cancelled t = false ->
                        is_paused (run_calls cs t) = false /\ is_cancelled (run_calls cs t) = false).
  { induction cs as [|c cs IH]; intros t Hp Hc; simpl; [auto|].
    apply IH; destruct c as [| | |now data]; simpl; auto;
      destruct (progress_callback_flags now data t) as [E1 E2]; congruence. }
  apply H; reflexivity.
Qed.

(** X14: the per-download and global pause and resume of
    [DownloadManager] never report success: [pause_download] and
    [resume_download] return [False] for an id that is not active and
    raise [TypeError] for an active one; [pause_all] and [resume_all]
    return 0 when no active thread is in the state they act on
    ([DOWNLOADING], [PAUSED]), and raise [TypeError] otherwise. *)
Theorem manager_pause_resume_never_succeed (id : string) (status_of : Job -> DownloadStatus)
    (m : Manager) :
  (pause_download id m = Ok false <-> dict_mem id (active_downloads m) = false) /\
  (pause_download id m = Raise qmutex_error <-> dict_mem id (active_downloads m) = true) /\
  (resume_download id m = Ok false <-> dict_mem id (active_downloads m) = false) /\
  (resume_download id m = Raise qmutex_error <-> dict_mem id (active_downloads m) = true) /\
  (pause_all status_of m = Ok 0%Z <->
     forall k j, In (k, j) (active_downloads m) -> status_of j <> DOWNLOADING) /\
  (pause_all status_of m = Ok 0%Z \/ pause_all status_of m = Raise qmutex_error) /\
  (resume_all status_of m = Ok 0%Z <->
     forall k j, In (k, j) (active_downloads m) -> status_of j <> PAUSED) /\
  (resume_all status_of m = Ok 0%Z \/ resume_all status_of m = Raise qmutex_error).
Proof.
  assert (Hst : forall a b, status_eqb a b = true <-> a = b)
    by (intros [] []; simpl; split; congruence).
  assert (Hp : forall d,
    (pause_all_loop status_of d 0 = Ok 0%Z <->
       forall k j, In (k, j) d -> status_of j <> DOWNLOADING) /\
    (pause_all_loop status_of d 0 = Ok 0%Z \/ pause_all_loop status_of d 0 = Raise qmutex_error)).
  { induction d as [|[k j] d [IH1 IH2]]; simpl.
    - split; [split; [intros _ k j []|reflexivity] | left; reflexivity].
    - destruct (status_eqb (status_of j) DOWNLOADING) eqn:E.
      + apply Hst in E. split; [|right; reflexivity]. split; [discriminate|].
        intros H. exfalso. exact (H k j (or_introl eq_refl) E).
      + split; [|exact IH2]. rewrite IH1. split.
        * intros H k' j' [Heq|Hin]; [injection Heq as <- <-|exact (H k' j' Hin)].
          intros E'. apply Hst in E'. congruence.
        * intros H k' j' Hin. exact (H k' j' (or_intror Hin)). }
  assert (Hr : forall d,
    (resume_all_loop status_of d 0 = Ok 0%Z <->
       forall k j, In (k, j) d -> status_of j <> PAUSED) /\
    (resume_all_loop status_of d 0 = Ok 0%Z \/ resume_all_loop status_of d 0 = Raise qmutex_error)).
  { induction d as [|[k j] d [IH1 IH2]]; simpl.
    - split; [split; [intros _ k j []|reflexivity] | left; reflexivity].
    - destruct (status_eqb (status_of j) PAUSED) eqn:E.
      + apply Hst in E. split; [|right; reflexivity]. split; [discriminate|].
        intros H. exfalso. exact (H k j (or_introl eq_refl) E).
      + split; [|exact IH2]. rewrite IH1. split.
        * intros H k' j' [Heq|Hin]; [injection Heq as <- <-|exact (H k' j' Hin)].
          intros E'. apply Hst in E'. congruence.
        * intros H k' j' Hin. exact (H k' j' (or_intror Hin)). }
  unfold pause_download, resume_download, pause_all, resume_all.
  destruct (Hp (active_downloads m)) as [Hp1 Hp2].
  destruct (Hr (active_downloads m)) as [Hr1 Hr2].
  destruct (dict_mem id (active_downloads m)).
  - repeat split; try discriminate; auto; try apply Hp1; try apply Hr1.
  - repeat split; try discriminate; auto; try apply Hp1; try apply Hr1.
Qed.

(* ================================================================== *)
(** * [format_duration] and [format_bytes] *)

Lemma read_fields_digit (d : Z) (s : string) (a : Z) :
  (0 <= d < 10)%Z -> read_fields (String (digit_char d) s) a = read_fields s (a * 10 + d)%Z.
Proof.
  intros Hd.
  assert (H : (d = 0 \/ d = 1 \/ d = 2 \/ d = 3 \/ d = 4 \/ d = 5 \/ d = 6 \/ d = 7 \/ d = 8
               \/ d = 9)%Z) by lia.
  repeat destruct H as [->|H]; try reflexivity. subst. reflexivity.
Qed.

Lemma digits_aux_acc (f : nat) (n : Z) (acc : string) :
  digits_aux f n acc = digits_aux f n "" ++ acc.
Proof.
  revert n acc. induction f as [|f IH]; intros n acc; simpl; [reflexivity|].
  destruct (n / 10 =? 0)%Z; [reflexivity|].
  rewrite (IH _ (String _ acc)), (IH _ (String _ "")), str_app_assoc. reflexivity.
Qed.

Lemma read_fields_digits (f : nat) :
  forall n, (0 <= n < 10 ^ Z.of_nat f)%Z ->
  exists k : nat, forall acc a,
    read_fields (digits_aux f n acc) a = read_fields acc (a * 10 ^ Z.of_nat k + n)%Z.
Proof.
  induction f as [|f IH]; intros n Hn.
  - simpl in Hn. exists O. intros acc a. simpl. f_equal. lia.
  - rewrite Nat2Z.inj_succ, Z.pow_succ_r in Hn by lia.
    simpl. destruct (Z.eqb_spec (n / 10) 0) as [Hq|Hq].
    + exists 1%nat. intros acc a. rewrite read_fields_digit by (apply Z.mod_pos_bound; lia).
      f_equal. pose proof (Z.div_mod n 10). lia.
    + destruct (IH (n / 10)%Z) as [k Hk].
      { split; [apply Z.div_pos; lia|]. apply Z.div_lt_upper_bound; lia. }
      exists (S k). intros acc a. rewrite Hk, read_fields_digit by (apply Z.mod_pos_bound; lia).
      f_equal. rewrite Nat2Z.inj_succ, Z.pow_succ_r by lia.
      pose proof (Z.div_mod n 10). nia.
Qed.

Lemma read_fields_str_int (n : Z) (rest : string) :
  (0 <= n < 10 ^ 64)%Z ->
  exists k : nat, forall a, read_fields (py_str_int n ++ rest) a = read_fields rest (a * 10 ^ Z.of_nat k + n)%Z.
Proof.
  intros Hn. unfold py_str_int. destruct (Z.ltb_spec n 0) as [|_]; [lia|].
  destruct (read_fields_digits 64 n) as [k Hk]; [exact Hn|].
  exists k. intros a. rewrite <- digits_aux_acc. apply Hk.
Qed.

Lemma read_fields_pad02 (n : Z) (rest : string) :
  (0 <= n < 10 ^ 64)%Z ->
  exists k : nat, forall a, read_fields (pad02 n ++ rest) a = read_fields rest (a * 10 ^ Z.of_nat k + n)%Z.
Proof.
  intros Hn. unfold pad02. destruct (read_fields_str_int n rest Hn) as [k Hk].
  destruct ((0 <=? n)%Z && (n <? 10)%Z).
  - exists (S k). intros a. simpl. rewrite Hk. f_equal.
    rewrite Nat2Z.inj_succ, Z.pow_succ_r by lia. change (Z.of_nat (nat_of_ascii "0") - 48)%Z with 0%Z. ring.
  - exists k. exact Hk.
Qed.

Lemma read_fields_colon (s : string) (a : Z) :
  read_fields (":" ++ s) a = option_map (cons a) (read_fields s 0).
Proof. reflexivity. Qed.

(** X15: [format_duration] gives ["Unknown"] for a non-positive number of
    seconds, and otherwise loses no information: reading its
    [HH:MM:SS] or [MM:SS] text back as hours, minutes and seconds gives
    the number of seconds again (for any duration below [10^64] s, the
    range of the decimal printing here). *)
Theorem format_duration_roundtrip (seconds : Z) :
  ((seconds <= 0)%Z -> format_duration seconds = "Unknown") /\
  ((0 < seconds < 10 ^ 64)%Z -> read_duration (format_duration seconds) = Some seconds).
Proof.
  split.
  - intros H. unfold format_duration. destruct (Z.leb_spec seconds 0); [reflexivity|lia].
  - intros Hs. unfold format_duration. destruct (Z.leb_spec seconds 0) as [|_]; [lia|].
    set (h := (seconds / 3600)%Z). set (m := ((seconds mod 3600) / 60)%Z).
    set (x := (seconds mod 60)%Z).
    assert (Hh : (0 <= h < 10 ^ 64)%Z).
    { split; [apply Z.div_pos; lia|]. apply Z.div_lt_upper_bound; lia. }
    assert (Hm : (0 <= m < 60)%Z).
    { pose proof (Z.mod_pos_bound seconds 3600). split; [apply Z.div_pos; lia|].
      apply Z.div_lt_upper_bound; lia. }
    assert (Hx : (0 <= x < 60)%Z) by (apply Z.mod_pos_bound; lia).
    assert (Heq : (h * 3600 + m * 60 + x = seconds)%Z).
    { subst h m x. rewrite <- (Z.mod_mod_divide seconds 3600 60) by (exists 60%Z; reflexivity).
      pose proof (Z.div_mod seconds 3600). pose proof (Z.div_mod (seconds mod 3600) 60). lia. }
    destruct (read_fields_pad02 x "") as [kx Hkx]; [lia|].
    rewrite str_app_nil_r in Hkx.
    destruct (read_fields_pad02 m (":" ++ pad02 x)) as [km Hkm]; [lia|].
    unfold read_duration. destruct (Z.ltb_spec 0 h) as [Hpos|Hz].
    + destruct (read_fields_pad02 h (":" ++ pad02 m ++ ":" ++ pad02 x)) as [kh Hkh]; [lia|].
      rewrite Hkh, read_fields_colon, Hkm, read_fields_colon, Hkx. simpl.
      rewrite !Z.add_0_l. f_equal. lia.
    + rewrite Hkm, read_fields_colon, Hkx. simpl. rewrite !Z.add_0_l. f_equal. lia.
Qed.








(* ================================================================== *)
(** * Further properties of [DownloadManager] *)

Lemma dict_set_keys_ok (j : Job) (d : JobDict) :
  (forall k j', In (k, j') d -> job_id j' = k) ->
  forall k j', In (k, j') (dict_set (job_id j) j d) -> job_id j' = k.
Proof.
  induction d as [|[k0 j0] d IH]; simpl; intros H k j' Hin.
  - destruct Hin as [Heq|[]]. injection Heq as <- <-. reflexivity.
  - destruct (String.eqb (job_id j) k0).
    + destruct Hin as [Heq|Hin]; [injection Heq as <- <-; reflexivity|]. apply H. now right.
    + destruct Hin as [Heq|Hin]; [apply H; now left|]. apply (IH (fun k j'' Hi => H k j'' (or_intror Hi))).
      exact Hin.
Qed.

Lemma dict_del_in (k : string) (d : JobDict) (x : string * Job) : In x (dict_del k d) -> In x d.
Proof.
  induction d as [|[k0 j0] d IH]; simpl; [auto|].
  destruct (String.eqb k k0); [auto|]. intros [H|H]; auto.
Qed.

Lemma delete_ids_in (ks : list string) (d : JobDict) (x : string * Job) :
  In x (delete_ids ks d) -> In x d.
Proof.
  unfold delete_ids. revert d. induction ks as [|k ks IH]; intros d H; simpl in H; [exact H|].
  apply dict_del_in with k. apply IH. exact H.
Qed.

Lemma start_loop_keys_ok (n : nat) :
  forall act q, (forall k j, In (k, j) act -> job_id j = k) ->
  forall k j, In (k, j) (fst (fst (start_loop n act q))) -> job_id j = k.
Proof.
  induction n as [|n IH]; intros act q H; simpl; [exact H|].
  destruct q as [|j q']; simpl; [exact H|].
  pose proof (IH (dict_set (job_id j) j act) q' (dict_set_keys_ok j act H)) as H'.
  destruct (start_loop n (dict_set (job_id j) j act) q') as [[a q''] s]. exact H'.
Qed.

Lemma op_state_keys_ok (op : MgrOp) (m : Manager) :
  active_keys_ok m -> active_keys_ok (op_state op m).
Proof.
  unfold active_keys_ok. intros H.
  destruct op as [now|id| |n|alive]; simpl.
  - exact H.
  - exact H.
  - unfold cancel_all. destruct (active_downloads m) as [|x l] eqn:E; simpl;
      intros k j Hin; [destruct Hin|rewrite E in Hin; exact (H k j Hin)].
  - unfold set_max_concurrent_downloads. destruct (0 <? n)%Z; exact H.
  - unfold process_download_queue. cbv zeta.
    match goal with |- context [start_loop ?n ?a ?q] =>
      pose proof (start_loop_keys_ok n a q) as Hs; destruct (start_loop n a q) as [[a2 q2] st] end.
    simpl. intros k j. apply Hs.
    intros k' j' Hin. apply H. eapply delete_ids_in. exact Hin.
Qed.

Lemma reachable_keys_ok (m : Manager) : reachable m -> active_keys_ok m.
Proof.
  intros (ops & n & ->).
  assert (H : forall m0, active_keys_ok m0 -> active_keys_ok (fst (fst (exec ops m0)))).
  { induction ops as [|op ops IH]; intros m0 H0; [exact H0|].
    rewrite (proj1 (exec_cons op ops m0)). apply IH, op_state_keys_ok, H0. }
  apply H. intros k j [].
Qed.

Lemma dict_get_some (id : string) (d : JobDict) (j : Job) :
  dict_get id d = Some j -> In (id, j) d.
Proof.
  induction d as [|[k0 j0] d IH]; simpl; [discriminate|].
  destruct (String.eqb_spec id k0) as [->|_]; [intros H; injection H as ->; now left|].
  intros H. right. now apply IH.
Qed.

Lemma dict_get_none (id : string) (d : JobDict) :
  dict_get id d = None <-> dict_mem id d = false.
Proof.
  unfold dict_mem. induction d as [|[k0 j0] d IH]; simpl; [tauto|].
  destruct (String.eqb id k0); simpl; [split; discriminate|exact IH].
Qed.

Lemma find_id_none (id : string) (q : list Job) :
  List.find (fun j => String.eqb (job_id j) id) q = None <-> ~ In id (map job_id q).
Proof.
  induction q as [|j q IH]; simpl; [tauto|].
  destruct (String.eqb_spec (job_id j) id) as [E|E].
  - split; [discriminate|]. intros H. exfalso. apply H. now left.
  - rewrite IH. split; intros H; [intros [H'|H']; [congruence|contradiction] | auto].
Qed.

(** X17: on every reachable manager state, [get_download_by_id id]
    returns only a thread whose [download_id] is [id], and it returns
    [None] exactly when [id] is neither a key of [active_downloads] nor
    the id of a queued thread. *)
Theorem get_download_by_id_correct (id : string) (m : Manager) :
  reachable m ->
  (forall j, get_download_by_id id m = Some j -> job_id j = id) /\
  (get_download_by_id id m = None <->
     dict_mem id (active_downloads m) = false /\ ~ In id (map job_id (download_queue m))).
Proof.
  intros Hr. pose proof (reachable_keys_ok m Hr) as Hk. split.
  - intros j. unfold get_download_by_id.
    destruct (dict_get id (active_downloads m)) as [j0|] eqn:E.
    + intros H. injection H as <-. apply Hk. now apply dict_get_some.
    + intros H. apply find_some in H as [_ H]. now apply String.eqb_eq.
  - unfold get_download_by_id. rewrite <- dict_get_none, <- find_id_none.
    destruct (dict_get id (active_downloads m)); split.
    + discriminate.
    + intros [H _]. discriminate.
    + intros H. split; [reflexivity|exact H].
    + intros [_ H]. exact H.
Qed.

Lemma get_download_by_id_correct_witness :
  let m := snd (fst (add_download 1700000000000 (new_manager 3))) in
  reachable m /\ get_download_by_id "dl_1700000000" m <> None.
Proof.
  cbv zeta.
  assert (Hr : reachable (snd (fst (add_download 1700000000000 (new_manager 3))))).
  { exists [OpAdd 1700000000000], 3%Z. reflexivity. }
  split; [exact Hr|].
  intros H. apply (proj2 (get_download_by_id_correct "dl_1700000000" _ Hr)) in H.
  destruct H as [_ H]. apply H. vm_compute. now left.
Defined.

(** X18: [get_status] never reports ["idle"] or ["finishing"] right
    after [add_download], and never reports ["finishing"] right after a
    dispatch pass: a pass that leaves nothing active and nothing queued
    clears the running flag, so the status is then ["idle"]. *)
Theorem get_status_after_add_and_pass (now : Z) (alive : Job -> bool) (m : Manager) :
  In (get_status (snd (fst (add_download now m)))) ["downloading"; "queued"] /\
  get_status (fst (process_download_queue alive m)) <> "finishing".
Proof.
  split.
  - unfold get_status, add_download, list_truthy. cbn [snd fst mgr_is_running active_downloads
      download_queue negb].
    destruct (active_downloads m); [|now left].
    destruct (download_queue m); simpl; right; left; reflexivity.
  - unfold process_download_queue. cbv zeta.
    match goal with |- context [start_loop ?n ?a ?q] => destruct (start_loop n a q) as [[a2 q2] st] end.
    unfold get_status, list_truthy. cbn [fst mgr_is_running active_downloads download_queue].
    destruct a2; destruct q2; destruct (mgr_is_running m); simpl; discriminate.
Qed.

(** X19: the ["total_downloads"] figure of [_emit_queue_stats] goes up by
    one with [add_download], and a dispatch pass keeps it when the ids
    held are distinct. *)
Theorem total_downloads_ops (now : Z) (alive : Job -> bool) (m : Manager) :
  total_downloads (snd (fst (add_download now m))) = S (total_downloads m) /\
  (List.NoDup (mgr_ids m) ->
     total_downloads (fst (process_download_queue alive m)) = total_downloads m).
Proof.
  split.
  - unfold total_downloads, add_download. simpl. rewrite length_app. simpl. lia.
  - intros Hn. apply process_queue_partition with (alive := alive) in Hn.
    apply Permutation_length in Hn. unfold mgr_ids, total_downloads in *.
    rewrite !length_app, !length_map in Hn. lia.
Qed.

Lemma total_downloads_ops_witness :
  let m := snd (fst (add_download 1700000000000 (new_manager 3))) in
  List.NoDup (mgr_ids m) /\
  total_downloads (fst (process_download_queue (fun _ => true) m)) = total_downloads m.
Proof.
  cbv zeta.
  assert (Hn : List.NoDup (mgr_ids (snd (fst (add_download 1700000000000 (new_manager 3)))))).
  { vm_compute. constructor; [intros []|constructor]. }
  split; [exact Hn|].
  exact (proj2 (total_downloads_ops 0 (fun _ => true)
                  (snd (fst (add_download 1700000000000 (new_manager 3))))) Hn).
Defined.

Lemma start_loop_empty_queue (n : nat) (act : JobDict) : start_loop n act [] = (act, [], []).
Proof. destruct n; reflexivity. Qed.

(** X20: with a thread in [active_downloads], [cancel_all] raises
    [TypeError] at [QMutex(self._mutex)] before touching anything, so the
    manager is unchanged.  With no active thread it returns the number
    of queued downloads and empties the queue, leaving the completed
    history as it was, and no dispatch pass afterwards starts a thread. *)
Theorem cancel_all_effect (m : Manager) (alive : Job -> bool) :
  (active_downloads m <> [] -> cancel_all m = (Raise qmutex_error, m)) /\
  (active_downloads m = [] ->
   let '(n, m') := cancel_all m in
   n = Ok (Z.of_nat (length (download_queue m))) /\
   download_queue m' = [] /\ active_downloads m' = [] /\
   completed_downloads m' = completed_downloads m /\
   snd (process_download_queue alive m') = []).
Proof.
  unfold cancel_all. split.
  - destruct (active_downloads m); [contradiction|reflexivity].
  - intros Ha. rewrite Ha. cbn [download_queue active_downloads completed_downloads].
    split; [reflexivity|]. split; [reflexivity|]. split; [reflexivity|]. split; [reflexivity|].
    unfold process_download_queue. cbn [download_queue]. rewrite start_loop_empty_queue. reflexivity.
Qed.

Lemma cancel_all_effect_witness :
  let m := snd (fst (add_download 1700000000000 (new_manager 3))) in
  active_downloads m = [] /\ fst (cancel_all m) = Ok 1%Z /\ download_queue (snd (cancel_all m)) = [].
Proof.
  cbv zeta.
  assert (Ha : active_downloads (snd (fst (add_download 1700000000000 (new_manager 3)))) = [])
    by (vm_compute; reflexivity).
  pose proof (proj2 (cancel_all_effect (snd (fst (add_download 1700000000000 (new_manager 3))))
                       (fun _ => true)) Ha) as H.
  destruct (cancel_all (snd (fst (add_download 1700000000000 (new_manager 3))))) as [n m'] eqn:E.
  destruct H as (Hn & Hq & _). split; [exact Ha|]. split; [|exact Hq].
  rewrite Hn. vm_compute. reflexivity.
Defined.
